(** * devcert: certificate issuance engine ([src/index.ts], [src/certificates.ts])

    A shallow embedding of the public operations of the add-on's devcert
    fork and of the domain-certificate manager they drive.

    The TypeScript code is effectful: it reads and writes the config
    directory, runs the [openssl] binary and calls into collaborators
    (CA manager, platform layer, config templates).  The embedding threads
    an explicit environment (a filesystem plus an abstract external state),
    returns thrown errors as values, and records every mutation and
    subprocess call in a trace. *)

From Stdlib Require Import ZArith String Ascii.
From stdpp Require Import gmap strings list sorting.

Local Open Scope Z_scope.
Local Open Scope string_scope.
Local Open Scope list_scope.

(** ** Data model *)

(** A filesystem entry.  [mode] is the numeric permission mask that
    [fs.chmodSync] hands to the operating system. *)
Inductive node : Type :=
| File (mode : Z) (content : string)
| Dir.

Abbreviation filesystem := (gmap string node).

(** Errors raised by collaborators and by Node's [fs] functions. *)
Inductive exn : Type :=
| ExternalToolError (stderr : string)
| FilesystemError (code path : string)
| CollaboratorError (message : string).

(** Everything an exported operation can throw.  The first three are the
    [throw new Error(...)] statements of [certificateFor]. *)
Inductive error : Type :=
| InvalidDomain (domain : string)
| PlatformNotSupported
| OpenSSLNotFound
| Thrown (e : exn).

Inductive result (A : Type) : Type :=
| Ok (a : A)
| Err (e : error).
Arguments Ok {A} a.
Arguments Err {A} e.

(** What a collaborator hands back: a value, or an exception of its own. *)
Inductive outcome (A : Type) : Type :=
| Returned (a : A)
| Raised (e : exn).
Arguments Returned {A} a.
Arguments Raised {A} e.

Definition to_result {A} (o : outcome A) : result A :=
  match o with
  | Returned a => Ok a
  | Raised e => Err (Thrown e)
  end.

(** The two generated OpenSSL configuration templates of [constants.ts]. *)
Inductive config_kind : Type := SigningRequestConfig | CertificateConfig.

(** Observable actions: every filesystem mutation, subprocess and
    collaborator call leaves one event, in program order. *)
Inductive event : Type :=
| EvOpenssl (args : list string)
| EvMkdirp (path : string)
| EvChmod (path : string) (mode : Z)
| EvRimraf (path : string)
| EvAssignUI
| EvInstallCA
| EvEnsureCAReadable
| EvAcquireCA
| EvReleaseCA
| EvWriteConfig (kind : config_kind) (domains : list string)
| EvRemoveConfig (path : string)
| EvHostsFile (domain : string).

(** [Options] of [index.ts]; [U] is the type of user-interface hooks. *)
Record Options (U : Type) : Type := {
  getCaBuffer : bool;
  getCaPath : bool;
  skipCertutilInstall : bool;
  skipHostsFile : bool;
  ui : option U
}.
Arguments getCaBuffer {U} _.
Arguments getCaPath {U} _.
Arguments skipCertutilInstall {U} _.
Arguments skipHostsFile {U} _.
Arguments ui {U} _.

(** The option object passed to [isValidDomain]. *)
Record domain_options : Type := {
  subdomain : bool;
  wildcard : bool;
  allowUnicode : bool;
  topLevel : bool
}.

(** A JavaScript [number] as the expiry queries see it: a count of days,
    or [NaN], which is what date arithmetic yields on a date that does not
    parse. *)
Inductive number : Type :=
| Num (days : Z)
| NaN.

(** [IReturnData]: [ca] and [caPath] are present only when requested. *)
Record IReturnData : Type := {
  key : string;
  cert : string;
  ca : option string;
  caPath : option string
}.

(** [requestedDomains: string | string[]] *)
Inductive requested : Type :=
| One (domain : string)
| Many (domains : list string).

(** The environment the code runs in: the filesystem and whatever else the
    outside world keeps (trust stores, hosts file, clock, entropy). *)
Record env (X : Type) : Type := { fs : filesystem; ext : X }.
Arguments fs {X} _.
Arguments ext {X} _.

Definition with_fs {X} (f : filesystem → filesystem) (e : env X) : env X :=
  {| fs := f (fs e); ext := ext e |}.

(** ** Collaborators

    Code that lives outside the two embedded files: platform constants,
    npm packages, the OpenSSL binary, the CA manager and the platform
    layer.  Each is a field; theorems hold for every choice of them. *)
Record externals (X U : Type) : Type := {
  configDir : string;
  pathSep : string;
  domainSep : string;
  isMac : bool;
  isLinux : bool;
  isWindows : bool;
  isValidDomain : string → domain_options → bool;
  commandExists : string → env X → bool;
  openssl_run : list string → env X → outcome string * env X;
  parseOpenSSLExpiryData_run : string → env X → outcome number;
  installCertificateAuthority_run : Options U → env X → outcome unit * env X;
  ensureCACertReadable_run : Options U → env X → outcome unit * env X;
  acquire_credentials : env X → outcome (string * string) * env X;
  release_credentials : env X → env X;
  write_config : config_kind → list string → env X → outcome string * env X;
  remove_config : string → env X → env X;
  addDomainToHostFileIfMissing_run : string → env X → env X;
  assign_ui : U → env X → env X
}.
Arguments configDir {X U} _.
Arguments pathSep {X U} _.
Arguments domainSep {X U} _.
Arguments isMac {X U} _.
Arguments isLinux {X U} _.
Arguments isWindows {X U} _.
Arguments isValidDomain {X U} _ _ _.
Arguments commandExists {X U} _ _ _.
Arguments openssl_run {X U} _ _ _.
Arguments parseOpenSSLExpiryData_run {X U} _ _ _.
Arguments installCertificateAuthority_run {X U} _ _ _.
Arguments ensureCACertReadable_run {X U} _ _ _.
Arguments acquire_credentials {X U} _ _.
Arguments release_credentials {X U} _ _.
Arguments write_config {X U} _ _ _ _.
Arguments remove_config {X U} _ _ _.
Arguments addDomainToHostFileIfMissing_run {X U} _ _ _.
Arguments assign_ui {X U} _ _ _.

(** ** The effect monad: state, errors and a trace *)

Definition M (X A : Type) : Type := env X → result A * env X * list event.

Definition ret {X A} (a : A) : M X A := fun s => (Ok a, s, []).

Definition throw {X A} (e : error) : M X A := fun s => (Err e, s, []).

Definition bind {X A B} (m : M X A) (k : A → M X B) : M X B :=
  fun s =>
    match m s with
    | (Ok a, s1, t1) =>
        match k a s1 with
        | (r, s2, t2) => (r, s2, t1 ++ t2)
        end
    | (Err e, s1, t1) => (Err e, s1, t1)
    end.

Declare Scope dc_scope.
Delimit Scope dc_scope with dc.
Notation "x <- m ;; k" := (bind m (fun x => k))
  (at level 20, m at level 99, k at level 200) : dc_scope.
Notation "m ;; k" := (bind m (fun _ => k))
  (at level 100, k at level 200, right associativity) : dc_scope.
Local Open Scope dc_scope.

(** [try { m } catch { h }] *)
Definition try_catch {X A} (m h : M X A) : M X A :=
  fun s =>
    match m s with
    | (Ok a, s1, t1) => (Ok a, s1, t1)
    | (Err _, s1, t1) =>
        match h s1 with
        | (r, s2, t2) => (r, s2, t1 ++ t2)
        end
    end.

(** Run [h] on every exit path of [m]; the outcome is that of [m]. *)
Definition finally {X A} (m : M X A) (h : M X unit) : M X A :=
  fun s =>
    match m s with
    | (r, s1, t1) =>
        match h s1 with
        | (_, s2, t2) => (r, s2, t1 ++ t2)
        end
    end.

(** A collaborator call that may throw: logged whether or not it fails. *)
Definition call {X A} (evs : list event) (f : env X → outcome A * env X) : M X A :=
  fun s => match f s with (o, s1) => (to_result o, s1, evs) end.

(** A collaborator call whose failures never reach the caller. *)
Definition call_total {X} (evs : list event) (f : env X → env X) : M X unit :=
  fun s => (Ok tt, f s, evs).

(** A read-only query of the environment. *)
Definition query {X A} (f : env X → outcome A) : M X A :=
  fun s => (to_result (f s), s, []).

(** [Array.prototype.forEach] with a callback that may throw. *)
Fixpoint forEach {X A} (f : A → M X unit) (l : list A) : M X unit :=
  match l with
  | [] => ret tt
  | x :: l' => f x ;; forEach f l'
  end.

Definition when {X} (b : bool) (m : M X unit) : M X unit :=
  if b then m else ret tt.

(** ** Node's [fs], [mkdirp] and [rimraf] on the filesystem model *)

(** [existsSync]: true for files and directories alike. *)
Definition exists_ {X} (path : string) : M X bool :=
  query (fun s => Returned (bool_decide (is_Some (fs s !! path)))).

(** [readFileSync]: throws when the path is absent or a directory. *)
Definition readFile {X} (path : string) : M X string :=
  query (fun s =>
    match fs s !! path with
    | Some (File _ content) => Returned content
    | Some Dir => Raised (FilesystemError "EISDIR" path)
    | None => Raised (FilesystemError "ENOENT" path)
    end).

(** [chmodSync(path, mode)]: [mode] is a number, used as the bit mask. *)
Definition chmod {X} (path : string) (mode : Z) : M X unit :=
  call [EvChmod path mode] (fun s =>
    match fs s !! path with
    | Some (File _ content) =>
        (Returned tt, with_fs (insert path (File (Z.land mode 4095) content)) s)
    | Some Dir => (Returned tt, s)
    | None => (Raised (FilesystemError "ENOENT" path), s)
    end).

(** [mkdirp.sync]: creates the directory unless something is there. *)
Definition mkdirp {X} (path : string) : M X unit :=
  call [EvMkdirp path] (fun s =>
    match fs s !! path with
    | Some (File _ _) => (Raised (FilesystemError "EEXIST" path), s)
    | Some Dir => (Returned tt, s)
    | None => (Returned tt, with_fs (insert path Dir) s)
    end).

(** The entries [rimraf.sync(path)] deletes: [path] and all below it. *)
Definition below (sep path p : string) : bool :=
  bool_decide (p = path) || String.prefix (path +:+ sep) p.

Definition rimraf_fs (sep path : string) (m : filesystem) : filesystem :=
  filter (fun kv => below sep path kv.1 = false) m.

(** [String.prototype.trim], for the ASCII white space [openssl] prints. *)
Fixpoint trim_start (s : string) : string :=
  match s with
  | String a s' => if Ascii.is_space a then trim_start s' else s
  | EmptyString => EmptyString
  end.

Definition trim (s : string) : string :=
  String.rev (trim_start (String.rev (trim_start s))).

(** ** The program *)

Section Devcert.
Context {X U : Type} (E : externals X U).

(** [rimraf.sync(path)] *)
Definition rimraf (path : string) : M X unit :=
  call_total [EvRimraf path] (with_fs (rimraf_fs (pathSep E) path)).

(** *** [constants.ts] *)

(** Node's [path.join], on segments that are already normalised. *)
Definition path_join (segments : list string) : string :=
  String.concat (pathSep E) segments.

(** Modelled from the spec: [configPath] of the missing [constants.ts];
    every file of the layout sits under the platform's config root. *)
Definition configPath (segments : list string) : string :=
  path_join (configDir E :: segments).

(** Modelled from the spec: [domainsDir] of the missing [constants.ts];
    the [domains] directory of the config root. *)
Definition domainsDir : string := configPath ["domains"].

(** Modelled from the spec: [rootCAKeyPath] of the missing [constants.ts];
    the CA key sits at the fixed path [rootCA.key] directly under the
    config root. *)
Definition rootCAKeyPath : string := configPath ["rootCA.key"].

(** Modelled from the spec: [rootCACertPath] of the missing
    [constants.ts]; the CA certificate sits at [rootCA.crt] directly
    under the config root. *)
Definition rootCACertPath : string := configPath ["rootCA.crt"].

(** Modelled from the spec: [getStableDomainPath] of the missing
    [constants.ts]; the directory identifier of a domain set is its
    domain names sorted and joined. *)
Definition getStableDomainPath (domains : list string) : string :=
  String.concat (domainSep E) (merge_sort String.le domains).

(** Modelled from the spec: [pathForDomain] of the missing [constants.ts];
    the layout is [domains/<domain-set-id>/<file>] under the config
    root. *)
Definition pathForDomain (domainPath : string) (segments : list string) : string :=
  path_join (domainsDir :: domainPath :: segments).

(** *** [utils.ts] *)

(** [openssl(args)]: runs the binary, returns its stdout, throws on a
    non-zero exit. *)
Definition openssl (args : list string) : M X string :=
  call [EvOpenssl args] (openssl_run E args).

Definition parseOpenSSLExpiryData (expiryData : string) : M X number :=
  query (parseOpenSSLExpiryData_run E expiryData).

(** *** Collaborators called from the two files *)

Definition installCertificateAuthority (options : Options U) : M X unit :=
  call [EvInstallCA] (installCertificateAuthority_run E options).

Definition ensureCACertReadable (options : Options U) : M X unit :=
  call [EvEnsureCAReadable] (ensureCACertReadable_run E options).

Definition addDomainToHostFileIfMissing (domain : string) : M X unit :=
  call_total [EvHostsFile domain] (addDomainToHostFileIfMissing_run E domain).

(** Modelled from the spec: [withCertificateAuthorityCredentials] of the
    missing [certificate-authority.ts]; it resolves the CA key and
    certificate paths, hands them to the supplied operation, and narrows
    the access again on every exit path. *)
Definition withCertificateAuthorityCredentials
    (cb : string * string → M X unit) : M X unit :=
  creds <- call [EvAcquireCA] (acquire_credentials E) ;;
  finally (cb creds) (call_total [EvReleaseCA] (release_credentials E)).

(** Modelled from the spec: the [with...Config] helpers of the missing
    [constants.ts]; a configuration embedding the domain list is
    generated, its path is handed to the callback, and it is removed
    afterwards. *)
Definition withDomainConfig (kind : config_kind) (domains : list string)
    (cb : string → M X unit) : M X unit :=
  configpath <- call [EvWriteConfig kind domains] (write_config E kind domains) ;;
  cb configpath ;;
  call_total [EvRemoveConfig configpath] (remove_config E configpath).

Definition withDomainSigningRequestConfig := withDomainConfig SigningRequestConfig.
Definition withDomainCertificateConfig := withDomainConfig CertificateConfig.

(** *** [certificates.ts] *)

(** [generateKey], lines 87-91. *)
Definition generateKey (filename : string) : M X unit :=
  openssl ["genrsa"; "-out"; filename; "2048"] ;;
  chmod filename 400.

(** The argument vector of the signing call, lines 42-57. *)
Definition sign_args (domainCertConfigPath csrFile domainCertPath
    caKeyPath caCertPath : string) : list string :=
  ["ca"; "-config"; domainCertConfigPath; "-in"; csrFile;
   "-out"; domainCertPath; "-keyfile"; caKeyPath; "-cert"; caCertPath;
   "-days"; "825"; "-batch"].

(** The argument vector of the revocation call, lines 71-81. *)
Definition revoke_args (domainCertConfigPath domainCertPath
    caKeyPath caCertPath : string) : list string :=
  ["ca"; "-config"; domainCertConfigPath; "-revoke"; domainCertPath;
   "-keyfile"; caKeyPath; "-cert"; caCertPath].

(** [generateDomainCertificate], lines 23-60. *)
Definition generateDomainCertificate (domains : list string) : M X unit :=
  let domainPath := getStableDomainPath domains in
  mkdirp (pathForDomain domainPath []) ;;
  let domainKeyPath := pathForDomain domainPath ["private-key.key"] in
  generateKey domainKeyPath ;;
  let csrFile := pathForDomain domainPath ["certificate-signing-request.csr"] in
  withDomainSigningRequestConfig domains (fun configpath =>
    openssl ["req"; "-new"; "-config"; configpath;
             "-key"; domainKeyPath; "-out"; csrFile] ;;
    ret tt) ;;
  let domainCertPath := pathForDomain domainPath ["certificate.crt"] in
  withCertificateAuthorityCredentials (fun '(caKeyPath, caCertPath) =>
    withDomainCertificateConfig domains (fun domainCertConfigPath =>
      openssl (sign_args domainCertConfigPath csrFile domainCertPath
                 caKeyPath caCertPath) ;;
      ret tt)).

(** [revokeDomainCertificate], lines 65-84. *)
Definition revokeDomainCertificate (domains : list string) : M X unit :=
  let domainPath := getStableDomainPath domains in
  let domainCertPath := pathForDomain domainPath ["certificate.crt"] in
  withCertificateAuthorityCredentials (fun '(caKeyPath, caCertPath) =>
    withDomainCertificateConfig domains (fun domainCertConfigPath =>
      openssl (revoke_args domainCertConfigPath domainCertPath
                 caKeyPath caCertPath) ;;
      ret tt)).

(** *** [index.ts] *)

(** [Array.isArray(requestedDomains) ? requestedDomains : [requestedDomains]] *)
Definition domains_of (requestedDomains : requested) : list string :=
  match requestedDomains with
  | One domain => [domain]
  | Many domains => domains
  end.

Definition validation_options : domain_options :=
  {| subdomain := true; wildcard := false; allowUnicode := true; topLevel := false |}.

(** The test of lines 76-79. *)
Definition rejected (domain : string) : bool :=
  negb (String.eqb domain "localhost")
  && negb (isValidDomain E domain validation_options).

(** The validation loop, lines 75-82. *)
Definition validate (domains : list string) : M X unit :=
  forEach (fun domain =>
    if rejected domain then throw (InvalidDomain domain) else ret tt) domains.

(** [certificateFor], lines 70-141.  The hosts-file callbacks of lines
    126-128 are started in order and never awaited; what they throw is
    lost with their promise. *)
Definition certificateFor (requestedDomains : requested)
    (options : Options U) : M X IReturnData :=
  let domains := domains_of requestedDomains in
  validate domains ;;
  let domainPath := getStableDomainPath domains in
  match ui options with
  | Some hooks => call_total [EvAssignUI] (assign_ui E hooks)
  | None => ret tt
  end ;;
  (if negb (isMac E) && negb (isLinux E) && negb (isWindows E)
   then throw PlatformNotSupported else ret tt) ;;
  found <- query (fun s => Returned (commandExists E "openssl" s)) ;;
  (if negb found then throw OpenSSLNotFound else ret tt) ;;
  let domainKeyPath := pathForDomain domainPath ["private-key.key"] in
  let domainCertPath := pathForDomain domainPath ["certificate.crt"] in
  caKeyExists <- exists_ rootCAKeyPath ;;
  (if negb caKeyExists then installCertificateAuthority options
   else if getCaBuffer options || getCaPath options
        then ensureCACertReadable options
        else ret tt) ;;
  certExists <- exists_ (pathForDomain domainPath ["certificate.crt"]) ;;
  (if negb certExists then generateDomainCertificate domains else ret tt) ;;
  (if negb (skipHostsFile options)
   then forEach addDomainToHostFileIfMissing domains else ret tt) ;;
  keyData <- readFile domainKeyPath ;;
  certData <- readFile domainCertPath ;;
  caData <- (if getCaBuffer options
             then (data <- readFile rootCACertPath ;; ret (Some data))
             else ret None) ;;
  ret {| key := keyData; cert := certData; ca := caData;
         caPath := if getCaPath options then Some rootCACertPath else None |}.

(** [hasCertificateFor], lines 143-147. *)
Definition hasCertificateFor (requestedDomains : requested) : M X bool :=
  let domains := domains_of requestedDomains in
  let domainPath := getStableDomainPath domains in
  exists_ (pathForDomain domainPath ["certificate.crt"]).

(** [removeDomain], lines 157-163. *)
Definition removeDomain (requestedDomains : requested) : M X unit :=
  let domains := domains_of requestedDomains in
  revokeDomainCertificate domains ;;
  let domainPath := getStableDomainPath domains in
  rimraf (pathForDomain domainPath []).

Definition expiry_args (certPath : string) : list string :=
  ["x509"; "-in"; certPath; "-noout"; "-enddate"].

(** [caExpiryInDays], lines 169-176. *)
Definition caExpiryInDays : M X number :=
  try_catch
    (caExpiryData <- openssl (expiry_args rootCACertPath) ;;
     parseOpenSSLExpiryData (trim caExpiryData))
    (ret (Num (-1))).

(** [certificateExpiryInDays], lines 178-188. *)
Definition certificateExpiryInDays (domain : string) : M X number :=
  let domainPath := getStableDomainPath [domain] in
  let domainCertPath := pathForDomain domainPath ["certificate.crt"] in
  try_catch
    (certExpiryData <- openssl (expiry_args domainCertPath) ;;
     parseOpenSSLExpiryData (trim certExpiryData))
    (ret (Num (-1))).

End Devcert.

(** ** Properties of traces and environments used in the statements *)

(** Events that only the domain-certificate generation step produces. *)
Definition generation_event (ev : event) : bool :=
  match ev with
  | EvOpenssl _ | EvMkdirp _ | EvChmod _ _
  | EvAcquireCA | EvReleaseCA | EvWriteConfig _ _ | EvRemoveConfig _ => true
  | _ => false
  end.

(** An [openssl] argument vector that invokes the [ca] sub-command. *)
Definition is_ca_call (args : list string) : bool :=
  match args with
  | command :: _ => String.eqb command "ca"
  | [] => false
  end.


(** Events that neither use the CA nor open or close its scope. *)
Definition outside_ca (ev : event) : bool :=
  match ev with
  | EvOpenssl args => negb (is_ca_call args)
  | EvAcquireCA | EvReleaseCA => false
  | _ => true
  end.

(** Permission bits granted to the group and to others ([0o077]). *)
Definition group_other_bits (mode : Z) : Z := Z.land mode 63.

(** Owner-read-only is [0o400], that is 256. *)
Definition owner_read_only (mode : Z) : bool := Z.eqb mode 256.

(** [m] never fails with an invalid-domain error. *)
Definition never_invalid {X A} (m : M X A) : Prop :=
  ∀ s d, (m s).1.1 ≠ Err (InvalidDomain d).

(** Every event [m] emits, from any state, satisfies [P]. *)
Definition emits {X A} (P : event → Prop) (m : M X A) : Prop :=
  ∀ s, Forall P (m s).2.

(** Started in a state satisfying [I], the action [m] ends in such a state,
    emits only events satisfying [P], and any value it returns satisfies
    [Q]. *)
Definition maintains {X A} (I : env X → Prop) (P : event → Prop)
    (Q : A → Prop) (m : M X A) : Prop :=
  ∀ s, I s →
    I (m s).1.2 ∧ Forall P (m s).2 ∧ ∀ a, (m s).1.1 = Ok a → Q a.

Section Frames.
Context {X U : Type} (E : externals X U).

(** What an expiry query on [certPath] answers in state [s]: whatever the
    parser returns for the trimmed tool output, be it a count of days or
    [NaN], and [-1] whenever the tool or the parser raises. *)
Definition expiry_outcome (certPath : string) (s : env X) (v : number) : Prop :=
  match openssl_run E (expiry_args certPath) s with
  | (Returned out, s1) =>
      match parseOpenSSLExpiryData_run E (trim out) s1 with
      | Returned answer => v = answer
      | Raised _ => v = Num (-1)
      end
  | (Raised _, _) => v = Num (-1)
  end.

(** A domain the validation loop lets through. *)
Definition acceptable (domain : string) : Prop :=
  domain = "localhost" ∨ isValidDomain E domain validation_options = true.

(** [s'] holds the same entries as [s] below the [domains] directory. *)
Definition keeps_domains (s s' : env X) : Prop :=
  ∀ p, String.prefix (domainsDir E +:+ pathSep E) p = true →
       fs s' !! p = fs s !! p.

(** The environment [certificateFor] sees once the user-interface hooks
    of the options are installed (line 92). *)
Definition after_ui (options : Options U) (s : env X) : env X :=
  match ui options with
  | Some hooks => assign_ui E hooks s
  | None => s
  end.

(** The CA manager, the platform layer and the UI registry work outside
    the [domains] directory. *)
Record caretakers_frame : Prop := {
  install_frame : ∀ o s,
    keeps_domains s (installCertificateAuthority_run E o s).2;
  ensure_frame : ∀ o s,
    keeps_domains s (ensureCACertReadable_run E o s).2;
  hosts_frame : ∀ d s,
    keeps_domains s (addDomainToHostFileIfMissing_run E d s);
  ui_frame : ∀ u s, keeps_domains s (assign_ui E u s)
}.

(** Revoking touches the CA's ledger, not the cached domain files. *)
Record revocation_frame : Prop := {
  acquire_frame : ∀ s, keeps_domains s (acquire_credentials E s).2;
  release_frame : ∀ s, keeps_domains s (release_credentials E s);
  write_config_frame : ∀ k ds s, keeps_domains s (write_config E k ds s).2;
  remove_config_frame : ∀ p s, keeps_domains s (remove_config E p s);
  revoke_frame : ∀ cfg crt k c s,
    keeps_domains s (openssl_run E (revoke_args cfg crt k c) s).2
}.

(** [s'] holds the same entries as [s] below the [domains] directory,
    except at [dir] and below it. *)
Definition keeps_outside (dir : string) (s s' : env X) : Prop :=
  ∀ p, String.prefix (domainsDir E +:+ pathSep E) p = true →
       below (pathSep E) dir p = false →
       fs s' !! p = fs s !! p.

(** Of the entries below the [domains] directory, the three generating
    [openssl] calls change at most the file they are told to write, and the
    credential and configuration helpers change none. *)
Record generation_frame : Prop := {
  genrsa_frame : ∀ out s p,
    String.prefix (domainsDir E +:+ pathSep E) p = true → p ≠ out →
    fs (openssl_run E ["genrsa"; "-out"; out; "2048"] s).2 !! p = fs s !! p;
  req_frame : ∀ config keyPath out s p,
    String.prefix (domainsDir E +:+ pathSep E) p = true → p ≠ out →
    fs (openssl_run E ["req"; "-new"; "-config"; config; "-key"; keyPath;
                       "-out"; out] s).2 !! p = fs s !! p;
  sign_frame : ∀ config csr out k c s p,
    String.prefix (domainsDir E +:+ pathSep E) p = true → p ≠ out →
    fs (openssl_run E (sign_args config csr out k c) s).2 !! p = fs s !! p;
  credentials_frame : ∀ s,
    keeps_domains s (acquire_credentials E s).2 ∧
    keeps_domains s (release_credentials E s);
  config_frame : ∀ k ds path s,
    keeps_domains s (write_config E k ds s).2 ∧
    keeps_domains s (remove_config E path s)
}.
End Frames.

(** ** The stages of [certificateFor]

    The body of [certificateFor], cut at the points where it can stop, so
    that a run can be followed stage by stage; [certificateFor_stages]
    proves the cut is the same code. *)

Section Stages.
Context {X U : Type} (E : externals X U).

(** The negation of the test of line 95. *)
Definition supported : bool := isMac E || isLinux E || isWindows E.

(** What line 92 emits. *)
Definition ui_events (options : Options U) : list event :=
  match ui options with
  | Some _ => [EvAssignUI]
  | None => []
  end.

(** Lines 108-116: install the CA on a first run, repair it on request. *)
Definition ca_stage (options : Options U) : M X unit :=
  caKeyExists <- exists_ (rootCAKeyPath E) ;;
  if negb caKeyExists then installCertificateAuthority E options
  else if getCaBuffer options || getCaPath options
       then ensureCACertReadable E options
       else ret tt.

(** Lines 133-140: read the domain material back and shape the result. *)
Definition read_stage (domains : list string) (options : Options U) : M X IReturnData :=
  let domainPath := getStableDomainPath E domains in
  keyData <- readFile (pathForDomain E domainPath ["private-key.key"]) ;;
  certData <- readFile (pathForDomain E domainPath ["certificate.crt"]) ;;
  caData <- (if getCaBuffer options
             then (data <- readFile (rootCACertPath E) ;; ret (Some data))
             else ret None) ;;
  ret {| key := keyData; cert := certData; ca := caData;
         caPath := if getCaPath options then Some (rootCACertPath E) else None |}.

(** Lines 118-140: generate unless cached, update the hosts file, read. *)
Definition issue_stage (domains : list string) (options : Options U) : M X IReturnData :=
  let domainPath := getStableDomainPath E domains in
  certExists <- exists_ (pathForDomain E domainPath ["certificate.crt"]) ;;
  (if negb certExists then generateDomainCertificate E domains else ret tt) ;;
  (if negb (skipHostsFile options)
   then forEach (addDomainToHostFileIfMissing E) domains else ret tt) ;;
  read_stage domains options.

(** What lines 125-129 emit and leave behind. *)
Definition hosts_events (options : Options U) (domains : list string) : list event :=
  if skipHostsFile options then [] else map EvHostsFile domains.

Definition after_hosts (options : Options U) (domains : list string)
    (s : env X) : env X :=
  if skipHostsFile options then s
  else foldl (λ s' d, addDomainToHostFileIfMissing_run E d s') s domains.

(** The events of a complete generation for a domain set, given the two
    configuration paths and the CA credentials handed out. *)
Definition generation_trace (domains : list string)
    (csrConfig certConfig caKeyPath caCertPath : string) : list event :=
  let domainPath := getStableDomainPath E domains in
  let domainKeyPath := pathForDomain E domainPath ["private-key.key"] in
  let csrFile := pathForDomain E domainPath ["certificate-signing-request.csr"] in
  let domainCertPath := pathForDomain E domainPath ["certificate.crt"] in
  [EvMkdirp (pathForDomain E domainPath []);
   EvOpenssl ["genrsa"; "-out"; domainKeyPath; "2048"];
   EvChmod domainKeyPath 400;
   EvWriteConfig SigningRequestConfig domains;
   EvOpenssl ["req"; "-new"; "-config"; csrConfig; "-key"; domainKeyPath;
              "-out"; csrFile];
   EvRemoveConfig csrConfig;
   EvAcquireCA;
   EvWriteConfig CertificateConfig domains;
   EvOpenssl (sign_args certConfig csrFile domainCertPath caKeyPath caCertPath);
   EvRemoveConfig certConfig;
   EvReleaseCA].

(** What [certificateFor] itself may do for a domain set: make the
    directory of the set, generate the key there and [chmod] it, write the
    signing request and the certificate there.  Collaborator events carry
    no path and are not constrained. *)
Definition issue_event (domains : list string) (ev : event) : Prop :=
  let domainPath := getStableDomainPath E domains in
  let domainKeyPath := pathForDomain E domainPath ["private-key.key"] in
  let csrFile := pathForDomain E domainPath ["certificate-signing-request.csr"] in
  let domainCertPath := pathForDomain E domainPath ["certificate.crt"] in
  match ev with
  | EvOpenssl args =>
      args = ["genrsa"; "-out"; domainKeyPath; "2048"] ∨
      (∃ config, args = ["req"; "-new"; "-config"; config; "-key"; domainKeyPath;
                         "-out"; csrFile]) ∨
      (∃ config caKeyPath caCertPath,
         args = sign_args config csrFile domainCertPath caKeyPath caCertPath)
  | EvMkdirp path => path = pathForDomain E domainPath []
  | EvChmod path mode => path = domainKeyPath ∧ mode = 400
  | EvRimraf _ => False
  | _ => True
  end.

(** The events of the hosts-file updates. *)
Definition is_hosts_event (ev : event) : bool :=
  match ev with
  | EvHostsFile _ => true
  | _ => false
  end.
End Stages.


(** ** A small concrete world, for running the code on examples *)

Module Sim.
Definition world : Type := env unit.

Definition put (path content : string) (s : world) : world :=
  with_fs (insert path (File 420 content)) s.

Definition is_file (s : world) (path : string) : bool :=
  match fs s !! path with
  | Some (File _ _) => true
  | _ => false
  end.

Fixpoint out_path (args : list string) : option string :=
  match args with
  | "-out" :: p :: _ => Some p
  | _ :: rest => out_path rest
  | [] => None
  end.

Fixpoint has_star (s : string) : bool :=
  match s with
  | String a s' => Ascii.eqb a "*" || has_star s'
  | EmptyString => false
  end.

Definition tool (args : list string) (s : world) : outcome string * world :=
  match args with
  | "x509" :: "-in" :: p :: _ =>
      if is_file s p
      then (Returned "notAfter=Jan  1 00:00:00 2030 GMT
", s)
      else (Raised (ExternalToolError "unable to load certificate"), s)
  | "ca" :: "-config" :: _ :: "-revoke" :: p :: _ =>
      if is_file s p
      then (Returned "", s)
      else (Raised (ExternalToolError "unable to load certificate"), s)
  | _ =>
      match out_path args with
      | Some p => (Returned "", put p "generated" s)
      | None => (Returned "", s)
      end
  end.

Definition parse (data : string) (s : world) : outcome number :=
  if String.prefix "notAfter=" data then Returned (Num 824)
  else Raised (CollaboratorError "unexpected expiry data").

Definition install (o : Options unit) (s : world) : outcome unit * world :=
  (Returned tt, put "/cfg/rootCA.crt" "ca cert" (put "/cfg/rootCA.key" "ca key" s)).

Definition E : externals unit unit := {|
  configDir := "/cfg";
  pathSep := "/";
  domainSep := ",";
  isMac := false;
  isLinux := true;
  isWindows := false;
  isValidDomain := fun d _ => negb (has_star d) && negb (String.eqb d "");
  commandExists := fun _ _ => true;
  openssl_run := tool;
  parseOpenSSLExpiryData_run := parse;
  installCertificateAuthority_run := install;
  ensureCACertReadable_run := fun _ s => (Returned tt, s);
  acquire_credentials := fun s => (Returned ("/cfg/rootCA.key", "/cfg/rootCA.crt"), s);
  release_credentials := fun s => s;
  write_config := fun _ _ s => (Returned "/tmp/devcert.conf", s);
  remove_config := fun _ s => s;
  addDomainToHostFileIfMissing_run := fun _ s => s;
  assign_ui := fun _ s => s
|}.

Definition fresh : world := {| fs := ∅; ext := tt |}.

Definition defaults : Options unit :=
  {| getCaBuffer := false; getCaPath := false; skipCertutilInstall := false;
     skipHostsFile := false; ui := None |}.

(** The world after a first [certificateFor("a.test")]. *)
Definition provisioned : world :=
  (certificateFor E (One "a.test") defaults fresh).1.2.
End Sim.

(** Variants of the concrete world: another platform, a missing [openssl],
    a CA manager that fails, a damaged cache entry. *)
Module SimVariants.
Definition variant (linux found : bool)
    (install : Options unit → Sim.world → outcome unit * Sim.world)
    : externals unit unit := {|
  configDir := configDir Sim.E;
  pathSep := pathSep Sim.E;
  domainSep := domainSep Sim.E;
  isMac := false;
  isLinux := linux;
  isWindows := false;
  isValidDomain := isValidDomain Sim.E;
  commandExists := fun _ _ => found;
  openssl_run := openssl_run Sim.E;
  parseOpenSSLExpiryData_run := parseOpenSSLExpiryData_run Sim.E;
  installCertificateAuthority_run := install;
  ensureCACertReadable_run := ensureCACertReadable_run Sim.E;
  acquire_credentials := acquire_credentials Sim.E;
  release_credentials := release_credentials Sim.E;
  write_config := write_config Sim.E;
  remove_config := remove_config Sim.E;
  addDomainToHostFileIfMissing_run := addDomainToHostFileIfMissing_run Sim.E;
  assign_ui := assign_ui Sim.E
|}.

Definition other_platform : externals unit unit := variant false true Sim.install.

Definition no_openssl : externals unit unit := variant true false Sim.install.

Definition denied : exn := CollaboratorError "permission denied".

Definition failing_install : externals unit unit :=
  variant true true (fun _ s => (Raised denied, s)).

(** The provisioned world with the private key of [a.test] deleted. *)
Definition broken : Sim.world :=
  with_fs (delete "/cfg/domains/a.test/private-key.key") Sim.provisioned.

(** A toolkit that reads its output path off the position it has in the
    three generating argument vectors, and a parser that answers [NaN] for
    a date it cannot read. *)
Definition positional_tool (args : list string) (s : Sim.world)
    : outcome string * Sim.world :=
  match args with
  | ["genrsa"; "-out"; out; _] => (Returned "", Sim.put out "key" s)
  | ["req"; "-new"; "-config"; _; "-key"; _; "-out"; out] =>
      (Returned "", Sim.put out "csr" s)
  | ["ca"; "-config"; _; "-in"; _; "-out"; out; "-keyfile"; _; "-cert"; _;
     "-days"; _; "-batch"] => (Returned "", Sim.put out "crt" s)
  | _ => (Returned "notAfter=garbage", s)
  end.

Definition read_date (data : string) (s : Sim.world) : outcome number :=
  if String.eqb data "notAfter=Jan  1 00:00:00 2030 GMT"
  then Returned (Num 824) else Returned NaN.

Definition positional : externals unit unit := {|
  configDir := configDir Sim.E;
  pathSep := pathSep Sim.E;
  domainSep := domainSep Sim.E;
  isMac := false;
  isLinux := true;
  isWindows := false;
  isValidDomain := isValidDomain Sim.E;
  commandExists := fun _ _ => true;
  openssl_run := positional_tool;
  parseOpenSSLExpiryData_run := read_date;
  installCertificateAuthority_run := Sim.install;
  ensureCACertReadable_run := ensureCACertReadable_run Sim.E;
  acquire_credentials := acquire_credentials Sim.E;
  release_credentials := release_credentials Sim.E;
  write_config := write_config Sim.E;
  remove_config := remove_config Sim.E;
  addDomainToHostFileIfMissing_run := addDomainToHostFileIfMissing_run Sim.E;
  assign_ui := assign_ui Sim.E
|}.

Definition with_ca : Options unit :=
  {| getCaBuffer := true; getCaPath := true; skipCertutilInstall := false;
     skipHostsFile := false; ui := Some tt |}.
End SimVariants.


Example sim_first_call :
  (certificateFor Sim.E (One "a.test") Sim.defaults Sim.fresh).2 =
  [EvInstallCA; EvMkdirp "/cfg/domains/a.test";
   EvOpenssl ["genrsa"; "-out"; "/cfg/domains/a.test/private-key.key"; "2048"];
   EvChmod "/cfg/domains/a.test/private-key.key" 400;
   EvWriteConfig SigningRequestConfig ["a.test"];
   EvOpenssl ["req"; "-new"; "-config"; "/tmp/devcert.conf"; "-key";
              "/cfg/domains/a.test/private-key.key"; "-out";
              "/cfg/domains/a.test/certificate-signing-request.csr"];
   EvRemoveConfig "/tmp/devcert.conf"; EvAcquireCA;
   EvWriteConfig CertificateConfig ["a.test"];
   EvOpenssl ["ca"; "-config"; "/tmp/devcert.conf"; "-in";
              "/cfg/domains/a.test/certificate-signing-request.csr"; "-out";
              "/cfg/domains/a.test/certificate.crt"; "-keyfile"; "/cfg/rootCA.key";
              "-cert"; "/cfg/rootCA.crt"; "-days"; "825"; "-batch"];
   EvRemoveConfig "/tmp/devcert.conf"; EvReleaseCA; EvHostsFile "a.test"].
Proof. vm_compute. reflexivity. Qed.

Example sim_first_call_result :
  (certificateFor Sim.E (One "a.test") Sim.defaults Sim.fresh).1.1 =
  Ok {| key := "generated"; cert := "generated"; ca := None; caPath := None |}.
Proof. vm_compute. reflexivity. Qed.

Example sim_second_call :
  (certificateFor Sim.E (One "a.test") Sim.defaults Sim.provisioned).2 =
  [EvHostsFile "a.test"].
Proof. vm_compute. reflexivity. Qed.

Example sim_paths :
  getStableDomainPath Sim.E ["b.test"; "a.test"] = "a.test,b.test".
Proof. vm_compute. reflexivity. Qed.

(** ** Reasoning about the monad *)

Section Monad_facts.
Context {X : Type}.
Implicit Types s : env X.

Lemma bind_inv {A B} (m : M X A) (k : A → M X B) s r s' t :
  bind m k s = (r, s', t) →
  (∃ e, m s = (Err e, s', t) ∧ r = Err e) ∨
  (∃ a s1 t1 t2, m s = (Ok a, s1, t1) ∧ k a s1 = (r, s', t2) ∧ t = t1 ++ t2).
Proof.
  unfold bind. destruct (m s) as [[[a|e] s1] t1].
  - destruct (k a s1) as [[r2 s2] t2] eqn:Hk. intros [= <- <- <-].
    right. by exists a, s1, t1, t2.
  - intros [= <- <- <-]. left. by exists e.
Qed.

Lemma bind_ok {A B} (m : M X A) (k : A → M X B) s b s' t :
  bind m k s = (Ok b, s', t) →
  ∃ a s1 t1 t2, m s = (Ok a, s1, t1) ∧ k a s1 = (Ok b, s', t2) ∧ t = t1 ++ t2.
Proof. intros [(e & _ & [=]) | H]%bind_inv. exact H. Qed.

Lemma bind_err {A B} (m : M X A) (k : A → M X B) s e s1 t1 :
  m s = (Err e, s1, t1) → bind m k s = (Err e, s1, t1).
Proof. unfold bind. by intros ->. Qed.

Lemma bind_step {A B} (m : M X A) (k : A → M X B) s a s1 t1 :
  m s = (Ok a, s1, t1) →
  bind m k s = (let '(r, s2, t2) := k a s1 in (r, s2, t1 ++ t2)).
Proof. unfold bind. by intros ->. Qed.

Lemma bind_pure {A B} (m : M X A) (k : A → M X B) s a :
  m s = (Ok a, s, []) → bind m k s = k a s.
Proof. intros H. rewrite (bind_step _ _ _ _ _ _ H). by destruct (k a s) as [[??]?]. Qed.

Lemma to_result_ok {A} (o : outcome A) a : to_result o = Ok a → o = Returned a.
Proof. destruct o; simpl; congruence. Qed.

Lemma to_result_not_invalid {A} (o : outcome A) d : to_result o ≠ Err (InvalidDomain d).
Proof. by destruct o. Qed.

(** *** Which errors an action can end in *)

Lemma ni_ret {A} (a : A) : never_invalid (ret (X:=X) a).
Proof. by intros s d. Qed.

Lemma ni_throw {A} e : (∀ d, e ≠ InvalidDomain d) → never_invalid (throw (X:=X) (A:=A) e).
Proof. intros H s d. simpl. intros [= ->]. by eapply H. Qed.

Lemma ni_call {A} evs (f : env X → outcome A * env X) : never_invalid (call evs f).
Proof. intros s d. unfold call. destruct (f s). apply to_result_not_invalid. Qed.

Lemma ni_call_total evs (f : env X → env X) : never_invalid (call_total evs f).
Proof. by intros s d. Qed.

Lemma ni_query {A} (f : env X → outcome A) : never_invalid (query f).
Proof. intros s d. apply to_result_not_invalid. Qed.

Lemma ni_bind {A B} (m : M X A) (k : A → M X B) :
  never_invalid m → (∀ a, never_invalid (k a)) → never_invalid (bind m k).
Proof.
  intros Hm Hk s d. unfold bind. specialize (Hm s d).
  destruct (m s) as [[[a|e] s1] t1].
  - specialize (Hk a s1 d). by destruct (k a s1) as [[??]?].
  - simpl in *. intros [= ->]. by apply Hm.
Qed.

Lemma ni_finally {A} (m : M X A) h : never_invalid m → never_invalid (finally m h).
Proof.
  intros Hm s d. unfold finally. specialize (Hm s d).
  destruct (m s) as [[r s1] t1]. by destruct (h s1) as [[??]?].
Qed.

Lemma ni_forEach {A} (f : A → M X unit) l :
  (∀ x, never_invalid (f x)) → never_invalid (forEach f l).
Proof.
  intros Hf. induction l as [|x l IH]; [apply ni_ret|].
  simpl. apply ni_bind; auto.
Qed.

(** *** Which events an action can emit *)

Lemma em_ret {A} P (a : A) : emits P (ret (X:=X) a).
Proof. intros s. constructor. Qed.

Lemma em_throw {A} P e : emits P (throw (X:=X) (A:=A) e).
Proof. intros s. constructor. Qed.

Lemma em_query {A} P (f : env X → outcome A) : emits P (query f).
Proof. intros s. constructor. Qed.

Lemma em_call {A} (P : event → Prop) ev (f : env X → outcome A * env X) :
  P ev → emits P (call [ev] f).
Proof. intros H s. unfold call. destruct (f s). simpl. by repeat constructor. Qed.

Lemma em_call_total (P : event → Prop) ev (f : env X → env X) :
  P ev → emits P (call_total [ev] f).
Proof. intros H s. simpl. by repeat constructor. Qed.

Lemma em_bind {A B} P (m : M X A) (k : A → M X B) :
  emits P m → (∀ a, emits P (k a)) → emits P (bind m k).
Proof.
  intros Hm Hk s. unfold bind. specialize (Hm s).
  destruct (m s) as [[[a|e] s1] t1]; [|exact Hm].
  specialize (Hk a s1). destruct (k a s1) as [[??]?]. simpl in *.
  by apply Forall_app.
Qed.

Lemma em_finally {A} P (m : M X A) h :
  emits P m → emits P h → emits P (finally m h).
Proof.
  intros Hm Hh s. unfold finally. specialize (Hm s).
  destruct (m s) as [[r s1] t1]. specialize (Hh s1).
  destruct (h s1) as [[??]?]. simpl in *. by apply Forall_app.
Qed.

Lemma em_try_catch {A} P (m h : M X A) :
  emits P m → emits P h → emits P (try_catch m h).
Proof.
  intros Hm Hh s. unfold try_catch. specialize (Hm s).
  destruct (m s) as [[[a|e] s1] t1]; [exact Hm|]. specialize (Hh s1).
  destruct (h s1) as [[??]?]. simpl in *. by apply Forall_app.
Qed.

Lemma em_forEach {A} P (f : A → M X unit) l :
  (∀ x, emits P (f x)) → emits P (forEach f l).
Proof.
  intros Hf. induction l as [|x l IH]; [apply em_ret|].
  simpl. apply em_bind; auto.
Qed.

Lemma emits_run {A} P (m : M X A) s r s' t :
  emits P m → m s = (r, s', t) → Forall P t.
Proof. intros H Hm. specialize (H s). by rewrite Hm in H. Qed.
End Monad_facts.


(** Breaks an action into its sequenced parts. *)
Ltac ni_steps :=
  repeat first
    [ apply ni_bind; [|intros ?]
    | apply ni_finally
    | apply ni_forEach; intros ?
    | apply ni_ret | apply ni_call | apply ni_call_total | apply ni_query
    | apply ni_throw; by intros ?
    | match goal with
      | |- never_invalid (match ?x with _ => _ end) => destruct x
      end ].

Ltac em_steps :=
  repeat first
    [ apply em_bind; [|intros ?]
    | apply em_finally
    | apply em_try_catch
    | apply em_forEach; intros ?
    | apply em_ret | apply em_throw | apply em_query
    | apply em_call; simpl | apply em_call_total; simpl
    | match goal with
      | |- emits _ (match ?x with _ => _ end) => destruct x
      end ].

(** Splits a run of [m ;; k] into the run of [m] and, when [m] returned,
    the run of [k]: [Hm] is the run of [m], which either failed or returned
    [a] in state [s1] with trace [t1]; [t2] is the trace of [k]. *)
Tactic Notation "inv_bind" hyp(H) "as" ident(a) ident(s1) ident(t1) ident(t2) ident(Hm) :=
  let e := fresh "e" in
  apply bind_inv in H as [(e & Hm & ->) | (a & s1 & t1 & t2 & Hm & H & ->)].

(** ** Invariants along an execution *)

Section Invariant_facts.
Context {X : Type} (I : env X → Prop) (P : event → Prop).

Lemma mt_ret {A} (Q : A → Prop) a : Q a → maintains I P Q (ret a).
Proof.
  intros Ha s Hs. simpl. split; [done|]. split; [constructor|].
  by intros ? [= <-].
Qed.

Lemma mt_throw {A} (Q : A → Prop) e : maintains I P Q (throw e).
Proof. intros s Hs. simpl. split; [done|]. split; [constructor|done]. Qed.

Lemma mt_query {A} (Q : A → Prop) (f : env X → outcome A) :
  (∀ s a, I s → f s = Returned a → Q a) → maintains I P Q (query f).
Proof.
  intros Hf s Hs. unfold query. simpl. split; [done|]. split; [constructor|].
  intros a Ha%to_result_ok. eauto.
Qed.

Lemma mt_call {A} (Q : A → Prop) ev (f : env X → outcome A * env X) :
  P ev → (∀ s, I s → I (f s).2) → (∀ s a, I s → (f s).1 = Returned a → Q a) →
  maintains I P Q (call [ev] f).
Proof.
  intros Hev Hf HQ s Hs. unfold call.
  specialize (Hf s Hs). specialize (HQ s).
  destruct (f s) as [o s1]. simpl in *. split; [done|].
  split; [by repeat constructor|]. intros a Ha%to_result_ok. eauto.
Qed.

Lemma mt_call_total (Q : unit → Prop) ev (f : env X → env X) :
  P ev → (∀ s, I s → I (f s)) → Q tt → maintains I P Q (call_total [ev] f).
Proof.
  intros Hev Hf HQ s Hs. simpl. split; [by apply Hf|].
  split; [by repeat constructor|]. by intros [] _.
Qed.

Lemma mt_bind {A B} (Q : A → Prop) (Q' : B → Prop) (m : M X A) (k : A → M X B) :
  maintains I P Q m → (∀ a, Q a → maintains I P Q' (k a)) →
  maintains I P Q' (bind m k).
Proof.
  intros Hm Hk s Hs. unfold bind. destruct (Hm s Hs) as (HI & HP & HQ).
  destruct (m s) as [[[a|e] s1] t1]; simpl in *.
  - destruct (Hk a (HQ a eq_refl) s1 HI) as (HI' & HP' & HQ').
    destruct (k a s1) as [[r2 s2] t2]. simpl in *.
    split; [done|]. split; [by apply Forall_app|done].
  - split; [done|]. split; [done|]. intros ? [=].
Qed.

Lemma mt_finally {A} (Q : A → Prop) (m : M X A) (h : M X unit) :
  maintains I P Q m → maintains I P (λ _, True) h →
  maintains I P Q (finally m h).
Proof.
  intros Hm Hh s Hs. unfold finally. destruct (Hm s Hs) as (HI & HP & HQ).
  destruct (m s) as [[r s1] t1]. simpl in *.
  destruct (Hh s1 HI) as (HI' & HP' & _).
  destruct (h s1) as [[r2 s2] t2]. simpl in *.
  split; [done|]. split; [by apply Forall_app|done].
Qed.

Lemma mt_forEach {A} (f : A → M X unit) l :
  (∀ x, maintains I P (λ _, True) (f x)) →
  maintains I P (λ _, True) (forEach f l).
Proof.
  intros Hf. induction l as [|x l IH]; [by apply mt_ret|].
  simpl. eapply mt_bind; [apply Hf|]. by intros _ _.
Qed.

Lemma mt_weaken {A} (Q : A → Prop) (m : M X A) :
  maintains I P Q m → maintains I P (λ _, True) m.
Proof.
  intros Hm s Hs. destruct (Hm s Hs) as (HI & HP & _). by repeat split.
Qed.

Lemma mt_run {A} (Q : A → Prop) (m : M X A) s r s' t :
  maintains I P Q m → I s → m s = (r, s', t) → I s' ∧ Forall P t.
Proof.
  intros Hm Hs Hrun. destruct (Hm s Hs) as (HI & HP & _).
  rewrite Hrun in HI, HP. by split.
Qed.
End Invariant_facts.


(** Walks through the sequenced parts of an action, keeping the invariant;
    the lookup of the cached certificate is known to answer true. *)
Ltac mt_steps :=
  repeat first
    [ apply mt_ret; done
    | apply mt_throw
    | apply mt_forEach; intros ?
    | apply mt_finally
    | apply mt_query; done
    | match goal with
      | |- maintains _ _ _ (bind (exists_ (pathForDomain _ _ ["certificate.crt"])) _) =>
          eapply (mt_bind _ _ (λ a, a = true)); [|intros ? ->; simpl]
      | |- maintains _ _ _ (bind _ _) =>
          eapply (mt_bind _ _ (λ _, True)); [|intros ? _]
      | |- maintains _ _ _ (match ?x with _ => _ end) => destruct x
      end ].


(** The same walk without knowledge of the cache. *)
Ltac mt_walk :=
  repeat first
    [ apply mt_ret; done
    | apply mt_throw
    | apply mt_forEach; intros ?
    | apply mt_finally
    | apply mt_query; done
    | match goal with
      | |- maintains _ _ _ (bind _ _) =>
          eapply (mt_bind _ _ (λ _, True)); [|intros ? _]
      | |- maintains _ _ _ (match ?x with _ => _ end) => destruct x
      end ].

(** ** Strings and paths *)

Lemma string_app_assoc (a b c : string) : (a +:+ b) +:+ c = a +:+ b +:+ c.
Proof.
  induction a as [|x a IH]; [done|].
  change (String x ((a +:+ b) +:+ c) = String x (a +:+ b +:+ c)).
  by rewrite IH.
Qed.

Lemma prefix_app (a b : string) : String.prefix a (a +:+ b) = true.
Proof.
  induction a as [|x a IH].
  - by destruct b.
  - change (String x a +:+ b) with (String x (a +:+ b)). simpl.
    destruct (ascii_dec x x); [exact IH|done].
Qed.

Section Path_facts.
Context {X U : Type} (E : externals X U).

Lemma pathForDomain_cons domainPath seg segments :
  pathForDomain E domainPath (seg :: segments) =
  (domainsDir E +:+ pathSep E) +:+ path_join E (domainPath :: seg :: segments).
Proof. unfold pathForDomain, path_join. simpl. by rewrite string_app_assoc. Qed.

Lemma pathForDomain_under domainPath seg segments :
  String.prefix (domainsDir E +:+ pathSep E)
    (pathForDomain E domainPath (seg :: segments)) = true.
Proof. rewrite pathForDomain_cons. apply prefix_app. Qed.

Lemma domain_file_below domainPath seg :
  below (pathSep E) (pathForDomain E domainPath [])
    (pathForDomain E domainPath [seg]) = true.
Proof.
  unfold below. apply orb_true_iff. right.
  unfold pathForDomain, path_join. simpl.
  rewrite <- !string_app_assoc. apply prefix_app.
Qed.

Lemma below_self sep dir : below sep dir dir = true.
Proof. unfold below. by rewrite bool_decide_eq_true_2. Qed.

Lemma keeps_domains_refl (s : env X) : keeps_domains E s s.
Proof. by intros p _. Qed.

Lemma keeps_domains_trans (s1 s2 s3 : env X) :
  keeps_domains E s1 s2 → keeps_domains E s2 s3 → keeps_domains E s1 s3.
Proof. intros H12 H23 p Hp. rewrite (H23 p Hp). by apply H12. Qed.

Lemma getStableDomainPath_perm (ds ds' : list string) :
  ds ≡ₚ ds' → getStableDomainPath E ds = getStableDomainPath E ds'.
Proof.
  intros Hp. unfold getStableDomainPath. f_equal.
  apply (Sorted_unique String.le).
  - apply Sorted_merge_sort; apply _.
  - apply Sorted_merge_sort; apply _.
  - by rewrite !merge_sort_Permutation.
Qed.
End Path_facts.

(** ** The claims *)

Section Claims.
Context {X U : Type} (E : externals X U).
Implicit Types (s : env X) (options : Options U) (req : requested).

(** *** Domain validation *)

Lemma rejected_true domain :
  domain ≠ "localhost" → isValidDomain E domain validation_options = false →
  rejected E domain = true.
Proof.
  intros Hne Hv. unfold rejected. rewrite Hv.
  by apply String.eqb_neq in Hne as ->.
Qed.

Lemma acceptable_not_rejected domain :
  acceptable E domain → rejected E domain = false.
Proof.
  unfold rejected. intros [-> | ->]; [done|].
  by rewrite andb_false_r.
Qed.

Lemma validate_rejects domains s :
  (∃ d, d ∈ domains ∧ rejected E d = true) →
  ∃ d, d ∈ domains ∧ rejected E d = true ∧
       validate E domains s = (Err (InvalidDomain d), s, []).
Proof.
  induction domains as [|x l IH]; intros (d & Hin & Hd).
  - by apply elem_of_nil in Hin.
  - destruct (rejected E x) eqn:Hx.
    + exists x. split; [left|split; [done|]].
      unfold validate. simpl. by rewrite Hx.
    + destruct IH as (d' & Hin' & Hd' & Hrun).
      * apply elem_of_cons in Hin as [-> | Hin]; [congruence|eauto].
      * exists d'. split; [by right|split; [done|]].
        unfold validate in *. simpl.
        rewrite Hx, (bind_pure _ _ s tt) by done. exact Hrun.
Qed.

Lemma validate_accepts domains s :
  Forall (acceptable E) domains → validate E domains s = (Ok tt, s, []).
Proof.
  induction 1 as [|x l Hx _ IH]; [done|].
  unfold validate in *. simpl.
  rewrite (acceptable_not_rejected _ Hx), (bind_pure _ _ s tt) by done.
  exact IH.
Qed.

Lemma generateDomainCertificate_never_invalid domains :
  never_invalid (generateDomainCertificate E domains).
Proof.
  unfold generateDomainCertificate, generateKey, withDomainSigningRequestConfig,
    withDomainCertificateConfig, withDomainConfig,
    withCertificateAuthorityCredentials, openssl, mkdirp, chmod.
  ni_steps.
Qed.

(** C3. A domain that is not "localhost" and that [isValidDomain] refuses
    (sub-domains allowed, wildcards refused, Unicode allowed) makes
    [certificateFor] fail with an invalid-domain error, with the
    environment untouched and no event emitted; a request whose domains
    are all "localhost" or valid never fails with that error, so
    "localhost" is accepted whatever [isValidDomain] says of it. *)
Theorem certificateFor_rejects_invalid_domain :
  (∀ req options s domain,
     domain ∈ domains_of req →
     domain ≠ "localhost" →
     isValidDomain E domain validation_options = false →
     ∃ d, d ∈ domains_of req ∧ d ≠ "localhost" ∧
          isValidDomain E d validation_options = false ∧
          certificateFor E req options s = (Err (InvalidDomain d), s, [])) ∧
  (∀ options s d,
     (certificateFor E (One "localhost") options s).1.1 ≠ Err (InvalidDomain d)) ∧
  (∀ req options s d,
     Forall (acceptable E) (domains_of req) →
     (certificateFor E req options s).1.1 ≠ Err (InvalidDomain d)).
Proof.
  assert (Hacc : ∀ req options s d,
    Forall (acceptable E) (domains_of req) →
    (certificateFor E req options s).1.1 ≠ Err (InvalidDomain d)).
  { intros req options s d Hall. revert s d.
    change (never_invalid (certificateFor E req options)).
    unfold certificateFor. apply ni_bind.
    - intros s d. by rewrite (validate_accepts _ s Hall).
    - intros _. unfold exists_, readFile, installCertificateAuthority,
        ensureCACertReadable, addDomainToHostFileIfMissing.
      ni_steps; apply generateDomainCertificate_never_invalid. }
  split; [|split; [|exact Hacc]].
  - intros req options s domain Hin Hne Hv.
    destruct (validate_rejects (domains_of req) s) as (d & Hd & Hrej & Hrun).
    { exists domain. split; [done|]. by apply rejected_true. }
    exists d. unfold rejected in Hrej.
    apply andb_true_iff in Hrej as [Hl Hi].
    apply negb_true_iff in Hl, Hi. apply String.eqb_neq in Hl.
    repeat split; try done.
    unfold certificateFor. by apply bind_err.
  - intros options s d. apply Hacc. simpl.
    constructor; [by left|constructor].
Qed.


(** *** The storage path *)

(** C2. Two lists holding the same domains in any order resolve to the
    same stable domain path, hence to the same files on disk, and
    [hasCertificateFor] answers alike for both. *)
Theorem stable_path_order_independent (ds ds' : list string) :
  ds ≡ₚ ds' →
  getStableDomainPath E ds = getStableDomainPath E ds' ∧
  (∀ segments,
     pathForDomain E (getStableDomainPath E ds) segments =
     pathForDomain E (getStableDomainPath E ds') segments) ∧
  hasCertificateFor E (Many ds) = hasCertificateFor E (Many ds').
Proof.
  intros Hp. pose proof (getStableDomainPath_perm E ds ds' Hp) as Heq.
  split; [exact Heq|]. split.
  - intros segments. by rewrite Heq.
  - unfold hasCertificateFor. simpl. by rewrite Heq.
Qed.

(** *** Expiry queries *)

Lemma expiry_query_total certPath s :
  ∃ v s' t,
    try_catch
      (data <- openssl E (expiry_args certPath) ;;
       parseOpenSSLExpiryData E (trim data))
      (ret (Num (-1))) s = (Ok v, s', t) ∧
    expiry_outcome E certPath s v.
Proof.
  unfold try_catch, bind, openssl, call, parseOpenSSLExpiryData, query,
    expiry_outcome.
  destruct (openssl_run E (expiry_args certPath) s) as [[out|e] s1]; simpl.
  - destruct (parseOpenSSLExpiryData_run E (trim out) s1) as [days|e]; simpl;
      eauto 10.
  - eauto 10.
Qed.

(** C6, as the code has it.  [caExpiryInDays] and
    [certificateExpiryInDays] never raise.  They answer [-1] when the
    [openssl x509 -enddate] call or the parser raises, and otherwise hand
    on what the parser returned, unchecked: the days until expiry when it
    read a date, and [NaN] when it answered [NaN]. *)
Theorem expiry_queries_never_raise s :
  (∃ v s' t, caExpiryInDays E s = (Ok v, s', t) ∧
             expiry_outcome E (rootCACertPath E) s v) ∧
  (∀ domain, ∃ v s' t,
     certificateExpiryInDays E domain s = (Ok v, s', t) ∧
     expiry_outcome E
       (pathForDomain E (getStableDomainPath E [domain]) ["certificate.crt"]) s v).
Proof.
  split; [|intros domain]; apply expiry_query_total.
Qed.


(** *** What a successful [certificateFor] leaves on disk *)

Lemma readFile_ok path s content s' t :
  readFile path s = (Ok content, s', t) →
  s' = s ∧ t = [] ∧ ∃ mode, fs s !! path = Some (File mode content).
Proof.
  unfold readFile, query. intros [= Hr <- <-].
  destruct (fs s !! path) as [[mode c|]|]; simpl in Hr; try done.
  injection Hr as ->. eauto.
Qed.

Lemma exists_run path s :
  exists_ path s = (Ok (bool_decide (is_Some (fs s !! path))), s, []).
Proof. done. Qed.

Lemma read_ca_ok (b : bool) path s (r : option string) s' t :
  (if b then (data <- readFile path ;; ret (Some data)) else ret None) s
    = (Ok r, s', t) →
  s' = s ∧ t = [].
Proof.
  destruct b.
  - intros (data & s1 & t1 & t2 & (-> & -> & _)%readFile_ok & [= _ <- <-] & ->)%bind_ok.
    done.
  - by intros [= _ <- <-].
Qed.

Lemma certificateFor_ok req options s r s' t :
  certificateFor E req options s = (Ok r, s', t) →
  let domainPath := getStableDomainPath E (domains_of req) in
  (∃ mode, fs s' !! pathForDomain E domainPath ["private-key.key"]
           = Some (File mode (key r))) ∧
  (∃ mode, fs s' !! pathForDomain E domainPath ["certificate.crt"]
           = Some (File mode (cert r))).
Proof.
  intros H domainPath. unfold certificateFor in H.
  repeat (apply bind_ok in H as (? & ? & ? & ? & ? & H & ->)).
  repeat match goal with
         | H : readFile _ _ = _ |- _ => apply readFile_ok in H as (-> & -> & ?)
         | H : (if _ then _ <- readFile _ ;; _ else _) _ = _ |- _ =>
             apply read_ca_ok in H as (-> & ->)
         end.
  injection H as <- <- <-. simpl. by split.
Qed.

(** *** What a [certificateFor] for one domain set leaves of the others *)

Section Outside.
Context (caretakers : caretakers_frame E) (generation : generation_frame E).
Context (dir : string) (s0 : env X).

Lemma keeps_outside_refl s : keeps_outside E dir s s.
Proof. by intros p _ _. Qed.

Lemma keeps_outside_step s s' :
  (∀ p, String.prefix (domainsDir E +:+ pathSep E) p = true →
        below (pathSep E) dir p = false → fs s' !! p = fs s !! p) →
  keeps_outside E dir s0 s → keeps_outside E dir s0 s'.
Proof. intros Hstep Hs p Hp Hb. rewrite (Hstep p Hp Hb). by apply Hs. Qed.

Lemma keeps_outside_domains s s' :
  keeps_domains E s s' → keeps_outside E dir s0 s → keeps_outside E dir s0 s'.
Proof. intros Hk. apply keeps_outside_step. intros p Hp _. by apply Hk. Qed.

Lemma keeps_outside_insert q n s :
  below (pathSep E) dir q = true →
  keeps_outside E dir s0 s → keeps_outside E dir s0 (with_fs (insert q n) s).
Proof.
  intros Hq. apply keeps_outside_step. intros p _ Hb. simpl.
  apply lookup_insert_ne. intros ->. congruence.
Qed.

Lemma keeps_outside_tool args out s :
  below (pathSep E) dir out = true →
  (∀ p, String.prefix (domainsDir E +:+ pathSep E) p = true → p ≠ out →
        fs (openssl_run E args s).2 !! p = fs s !! p) →
  keeps_outside E dir s0 s → keeps_outside E dir s0 (openssl_run E args s).2.
Proof.
  intros Hout Hframe. apply keeps_outside_step. intros p Hp Hb.
  apply Hframe; [done|]. intros ->. congruence.
Qed.
End Outside.

Lemma certificateFor_keeps_outside req options s0 :
  caretakers_frame E → generation_frame E →
  maintains
    (keeps_outside E (pathForDomain E (getStableDomainPath E (domains_of req)) []) s0)
    (λ _, True) (λ _, True) (certificateFor E req options).
Proof.
  intros [Hinstall Hensure Hhosts Hui] [Hgenrsa Hreq Hsign Hcred Hconf].
  pose proof (λ s, proj1 (Hcred s)) as Hacquire.
  pose proof (λ s, proj2 (Hcred s)) as Hrelease.
  pose proof (λ k ds s, proj1 (Hconf k ds "" s)) as Hwrite.
  pose proof (λ path s, proj2 (Hconf CertificateConfig [] path s)) as Hremove.
  clear Hcred Hconf.
  set (dir := pathForDomain E (getStableDomainPath E (domains_of req)) []).
  unfold certificateFor, generateDomainCertificate, generateKey,
    withDomainSigningRequestConfig, withDomainCertificateConfig, withDomainConfig,
    withCertificateAuthorityCredentials, openssl, installCertificateAuthority,
    ensureCACertReadable, addDomainToHostFileIfMissing.
  fold dir. mt_walk.
  all: try (apply mt_call_total; [done| |done]; intros st;
            apply keeps_outside_domains;
            first [apply Hui | apply Hhosts | apply Hrelease | apply Hremove]).
  all: try (apply mt_call; [done| |done]; intros st;
            first
              [ apply keeps_outside_domains;
                first [apply Hinstall | apply Hensure | apply Hacquire | apply Hwrite]
              | apply keeps_outside_tool with
                  (out := pathForDomain E (getStableDomainPath E (domains_of req))
                            ["private-key.key"]);
                [apply domain_file_below | intros; by apply Hgenrsa]
              | apply keeps_outside_tool with
                  (out := pathForDomain E (getStableDomainPath E (domains_of req))
                            ["certificate-signing-request.csr"]);
                [apply domain_file_below | intros; by apply Hreq]
              | apply keeps_outside_tool with
                  (out := pathForDomain E (getStableDomainPath E (domains_of req))
                            ["certificate.crt"]);
                [apply domain_file_below | intros; by apply Hsign] ]).
  - unfold mkdirp. apply mt_call; [done| |done]. intros st Hst.
    destruct (fs st !! dir) as [[? ?|]|]; simpl; try done.
    apply keeps_outside_insert; [apply below_self|done].
  - unfold chmod. apply mt_call; [done| |done]. intros st Hst.
    destruct (fs st !! _) as [[? ?|]|]; simpl; try done.
    apply keeps_outside_insert; [apply domain_file_below|done].
Qed.

(** C9, as the code has it.  [hasCertificateFor] answers by path.  It is
    false on a config root whose [domains] directory holds nothing.  When
    the collaborators write only where a generation tells them to, a
    [certificateFor] for a domain set whose directory does not hold the
    certificate path of the request leaves the answer as it was, so false
    stays false however many other sets are provisioned.  And in the
    environment a successful [certificateFor] leaves behind, it answers
    true for the same request. *)
Theorem hasCertificateFor_before_and_after req :
  (∀ s,
     (∀ p, String.prefix (domainsDir E +:+ pathSep E) p = true →
           fs s !! p = None) →
     hasCertificateFor E req s = (Ok false, s, [])) ∧
  (caretakers_frame E → generation_frame E →
   ∀ req' options s r s' t,
     certificateFor E req' options s = (r, s', t) →
     below (pathSep E)
       (pathForDomain E (getStableDomainPath E (domains_of req')) [])
       (pathForDomain E (getStableDomainPath E (domains_of req))
          ["certificate.crt"]) = false →
     (hasCertificateFor E req s').1.1 = (hasCertificateFor E req s).1.1) ∧
  (∀ options s r s' t,
     certificateFor E req options s = (Ok r, s', t) →
     hasCertificateFor E req s' = (Ok true, s', [])).
Proof.
  split; [|split].
  - intros s Hfresh. unfold hasCertificateFor. rewrite exists_run.
    rewrite Hfresh by apply pathForDomain_under.
    by rewrite bool_decide_eq_false_2 by (by intros [? ?]).
  - intros caretakers generation req' options s r s' t Hrun Hb.
    destruct (mt_run _ _ _ _ _ _ _ _
                (certificateFor_keeps_outside req' options s caretakers generation)
                (keeps_outside_refl _ s) Hrun) as [Hkeep _].
    unfold hasCertificateFor. rewrite !exists_run. simpl.
    by rewrite (Hkeep _ (pathForDomain_under E _ _ _) Hb).
  - intros options s r s' t [_ [mode Hc]]%certificateFor_ok.
    unfold hasCertificateFor. rewrite exists_run, Hc.
    by rewrite bool_decide_eq_true_2 by eauto.
Qed.


(** *** Reuse of cached certificates *)

Section Cached.
Context (frame : caretakers_frame E) (req : requested) (s0 : env X).

Lemma keeps_domains_step (f : env X → env X) s :
  (∀ s1, keeps_domains E s1 (f s1)) →
  keeps_domains E s0 s → keeps_domains E s0 (f s).
Proof. intros Hf Hs. eapply keeps_domains_trans; [exact Hs|apply Hf]. Qed.

Lemma certificateFor_cached options :
  is_Some (fs s0 !! pathForDomain E (getStableDomainPath E (domains_of req))
                      ["certificate.crt"]) →
  maintains (keeps_domains E s0) (λ ev, generation_event ev = false)
    (λ _, True) (certificateFor E req options).
Proof.
  intros Hcert. destruct frame as [Hinstall Hensure Hhosts Hui].
  unfold certificateFor. mt_steps.
  - apply mt_call_total; [done| |done].
    intros s. by apply keeps_domains_step.
  - apply mt_call; [done| |done].
    intros s. apply (keeps_domains_step (λ s, (_ s).2)), Hinstall.
  - apply mt_call; [done| |done].
    intros s. apply (keeps_domains_step (λ s, (_ s).2)), Hensure.
  - apply mt_query. intros s b Hs [= <-].
    apply bool_decide_eq_true_2.
    rewrite (Hs _ (pathForDomain_under E _ _ _)). exact Hcert.
  - apply mt_call_total; [done| |done].
    intros s. by apply keeps_domains_step.
Qed.
End Cached.

Lemma hasCertificateFor_true req s :
  hasCertificateFor E req s = (Ok true, s, []) →
  is_Some (fs s !! pathForDomain E (getStableDomainPath E (domains_of req))
                     ["certificate.crt"]).
Proof.
  unfold hasCertificateFor. rewrite exists_run. intros [= H].
  by apply bool_decide_eq_true in H.
Qed.

(** C1. When the CA manager, the platform layer and the UI registry
    leave the [domains] directory alone: a [certificateFor] call made
    while [certificate.crt] exists for the domain set emits no generation
    event (no [openssl], [mkdirp], [chmod], credential or config event)
    and leaves the cached key and certificate entries as they were; in
    particular a second call after a successful first one regenerates
    nothing and, when it succeeds, returns the key and certificate of the
    first. *)
Theorem certificateFor_reuses_cached_certificate :
  caretakers_frame E →
  ∀ req,
    let domainPath := getStableDomainPath E (domains_of req) in
    let keyPath := pathForDomain E domainPath ["private-key.key"] in
    let certPath := pathForDomain E domainPath ["certificate.crt"] in
    (∀ options s r s' t,
       hasCertificateFor E req s = (Ok true, s, []) →
       certificateFor E req options s = (r, s', t) →
       Forall (λ ev, generation_event ev = false) t ∧
       fs s' !! keyPath = fs s !! keyPath ∧
       fs s' !! certPath = fs s !! certPath) ∧
    (∀ o1 o2 s0 r1 s1 t1 r2 s2 t2,
       certificateFor E req o1 s0 = (Ok r1, s1, t1) →
       certificateFor E req o2 s1 = (r2, s2, t2) →
       Forall (λ ev, generation_event ev = false) t2 ∧
       fs s2 !! keyPath = fs s1 !! keyPath ∧
       fs s2 !! certPath = fs s1 !! certPath ∧
       ∀ r, r2 = Ok r → key r = key r1 ∧ cert r = cert r1).
Proof.
  intros frame req domainPath keyPath certPath.
  assert (Hcached : ∀ options s r s' t,
    is_Some (fs s !! certPath) →
    certificateFor E req options s = (r, s', t) →
    Forall (λ ev, generation_event ev = false) t ∧
    fs s' !! keyPath = fs s !! keyPath ∧
    fs s' !! certPath = fs s !! certPath).
  { intros options s r s' t Hcert Hrun.
    destruct (mt_run _ _ _ _ _ _ _ _
                (certificateFor_cached frame req s options Hcert)
                (keeps_domains_refl E s) Hrun) as [Hkeep Hev].
    split; [exact Hev|].
    split; apply Hkeep, pathForDomain_under. }
  split.
  - intros options s r s' t Hhas%hasCertificateFor_true. by apply Hcached.
  - intros o1 o2 s0 r1 s1 t1 r2 s2 t2 Hfirst Hsecond.
    destruct (certificateFor_ok _ _ _ _ _ _ Hfirst) as [[mk Hk1] [mc Hc1]].
    destruct (Hcached o2 s1 r2 s2 t2) as (Hev & Hk & Hc); [by eexists|done|].
    repeat split; try done.
    + subst r2. destruct (certificateFor_ok _ _ _ _ _ _ Hsecond) as [[mk' Hk2] _].
      fold domainPath keyPath in Hk1, Hk2. congruence.
    + subst r2. destruct (certificateFor_ok _ _ _ _ _ _ Hsecond) as [_ [mc' Hc2]].
      fold domainPath certPath in Hc1, Hc2. congruence.
Qed.

(** *** The repair of an unreadable CA key *)

(** [H] is a run that never reaches [ensureCACertReadable]: its trace
    holds no repair event. *)
Local Ltac no_repair H :=
  eapply (emits_run (λ ev, ev ≠ EvEnsureCAReadable)) in H;
  [ rewrite Forall_forall in H; split; [|done];
    let Hin := fresh in intros Hin; by apply H in Hin
  | unfold installCertificateAuthority, generateDomainCertificate, generateKey,
      withDomainSigningRequestConfig, withDomainCertificateConfig,
      withDomainConfig, withCertificateAuthorityCredentials, openssl,
      mkdirp, chmod, addDomainToHostFileIfMissing, readFile, exists_;
    em_steps; done ].

Lemma validate_pure domains s : ∃ r, validate E domains s = (r, s, []).
Proof.
  induction domains as [|x l [r IH]]; [by eexists|].
  unfold validate in *. simpl. destruct (rejected E x).
  - by eexists.
  - rewrite (bind_pure _ _ s tt) by done. by eexists.
Qed.

Lemma ui_step options s :
  ∃ t0, match ui options with
        | Some hooks => call_total [EvAssignUI] (assign_ui E hooks)
        | None => ret tt
        end s = (Ok tt, after_ui E options s, t0) ∧
        EvEnsureCAReadable ∉ t0.
Proof.
  unfold after_ui. destruct (ui options) as [hooks|]; simpl.
  - eexists. split; [done|]. by intros [=]%list_elem_of_singleton.
  - eexists. split; [done|]. apply not_elem_of_nil.
Qed.

(** C4, as the code has it.  [ensureCACertReadable] runs only when the
    caller asked for the CA back ([getCaBuffer] or [getCaPath]) and the
    root CA key exists once the UI hooks are in place; and when domain
    validation, the platform check and the [openssl] lookup pass, the key
    exists and one of the two options is set, it does run. *)
Theorem ensureCACertReadable_on_request req options s r s' t :
  certificateFor E req options s = (r, s', t) →
  (EvEnsureCAReadable ∈ t →
     getCaBuffer options || getCaPath options = true ∧
     is_Some (fs (after_ui E options s) !! rootCAKeyPath E)) ∧
  (Forall (acceptable E) (domains_of req) →
   isMac E || isLinux E || isWindows E = true →
   commandExists E "openssl" (after_ui E options s) = true →
   is_Some (fs (after_ui E options s) !! rootCAKeyPath E) →
   getCaBuffer options || getCaPath options = true →
   EvEnsureCAReadable ∈ t).
Proof.
  intros H. unfold certificateFor in H.
  destruct (validate_pure (domains_of req) s) as [rv Hv].
  inv_bind H as a1 s1 t1 t2 Hm; rewrite Hv in Hm; injection Hm as ? ? ?.
  { subst rv s' t. split; [by intros ?%elem_of_nil|].
    intros Hall. by rewrite (validate_accepts _ s Hall) in Hv. }
  subst rv s1 t1. clear Hv. simpl.
  destruct (ui_step options s) as (t0 & Hui & Hnot).
  inv_bind H as a2 s2 t3 t4 Hm; rewrite Hui in Hm; [done|].
  injection Hm as ? ? ?. subst a2 s2 t3. clear Hui.
  set (s2 := after_ui E options s) in *.
  assert (Hiff : EvEnsureCAReadable ∈ t0 ++ t4 ↔ EvEnsureCAReadable ∈ t4).
  { rewrite elem_of_app. tauto. }
  rewrite Hiff. clear Hiff Hnot t0.
  destruct (negb (isMac E) && negb (isLinux E) && negb (isWindows E)) eqn:Hplat.
  { rewrite (bind_err _ _ s2 PlatformNotSupported s2 []) in H by done.
    injection H as ? ? ?. subst r s' t4.
    split; [by intros ?%elem_of_nil|]. intros _ Hsup.
    destruct (isMac E), (isLinux E), (isWindows E); done. }
  rewrite (bind_pure _ _ s2 tt) in H by done.
  rewrite (bind_pure _ _ s2 (commandExists E "openssl" s2)) in H by done.
  destruct (commandExists E "openssl" s2) eqn:Hcmd; simpl in H.
  2:{ rewrite (bind_err _ _ s2 OpenSSLNotFound s2 []) in H by done.
      injection H as ? ? ?. subst r s' t4.
      split; [by intros ?%elem_of_nil|done]. }
  rewrite (bind_pure _ _ s2 tt) in H by done.
  rewrite (bind_pure _ _ s2 _ (exists_run _ s2)) in H.
  destruct (decide (is_Some (fs s2 !! rootCAKeyPath E))) as [Hkey|Hkey];
    [rewrite bool_decide_eq_true_2 in H by done
    |rewrite bool_decide_eq_false_2 in H by done]; simpl in H;
    destruct (getCaBuffer options || getCaPath options) eqn:Hflags.
  - inv_bind H as a3 s3 t5 t6 Hm; unfold ensureCACertReadable, call in Hm;
      destruct (ensureCACertReadable_run E options s2); injection Hm as ? ? ?;
      subst; split; intros; try done; rewrite ?elem_of_app; repeat left.
  - no_repair H.
  - no_repair H.
  - no_repair H.
Qed.

(** *** Calls made under the CA credentials *)

(** The four ways a configured [openssl] call under the CA credentials
    can go: the acquisition fails; the configuration cannot be written;
    the tool fails; everything succeeds. *)
Lemma scoped_call_runs domains (args : string → string → string → list string)
    s r s' t :
  withCertificateAuthorityCredentials E (λ '(caKeyPath, caCertPath),
    withDomainCertificateConfig E domains (λ config,
      openssl E (args config caKeyPath caCertPath) ;; ret tt)) s = (r, s', t) →
  (∃ e, r = Err e ∧ t = [EvAcquireCA]) ∨
  ∃ caKeyPath caCertPath,
    (acquire_credentials E s).1 = Returned (caKeyPath, caCertPath) ∧
    ((∃ e, r = Err e ∧
           t = [EvAcquireCA; EvWriteConfig CertificateConfig domains;
                EvReleaseCA]) ∨
     ∃ config,
       (∃ e, r = Err e ∧
             t = [EvAcquireCA; EvWriteConfig CertificateConfig domains;
                  EvOpenssl (args config caKeyPath caCertPath);
                  EvReleaseCA]) ∨
       (r = Ok tt ∧
        t = [EvAcquireCA; EvWriteConfig CertificateConfig domains;
             EvOpenssl (args config caKeyPath caCertPath);
             EvRemoveConfig config; EvReleaseCA])).
Proof.
  unfold withCertificateAuthorityCredentials, withDomainCertificateConfig,
    withDomainConfig, openssl, bind, finally, call, call_total, ret.
  destruct (acquire_credentials E s) as [[[k c]|e] s1]; simpl.
  2:{ intros [= <- <- <-]. left. by eexists. }
  intros H. right. exists k, c. split; [done|]. revert H.
  destruct (write_config E CertificateConfig domains s1) as [[config|e] s2]; simpl.
  2:{ intros [= <- <- <-]. left. by eexists. }
  destruct (openssl_run E (args config k c) s2) as [[out|e] s3]; simpl;
    intros [= <- <- <-]; right; exists config; [right|left]; eauto.
Qed.


Lemma outside_ca_not_ca t args :
  Forall (λ ev, outside_ca ev = true) t → EvOpenssl ("ca" :: args) ∉ t.
Proof.
  intros Hall Hin. rewrite Forall_forall in Hall. by apply Hall in Hin.
Qed.

(** *** Key generation and signing *)

Lemma mkdirp_outside_ca path :
  emits (X:=X) (λ ev, outside_ca ev = true) (mkdirp path).
Proof. unfold mkdirp. em_steps; done. Qed.

Lemma generateKey_outside_ca filename :
  emits (λ ev, outside_ca ev = true) (generateKey E filename).
Proof. unfold generateKey, openssl, chmod. em_steps; done. Qed.

Lemma signing_request_outside_ca domains keyPath csrFile :
  emits (λ ev, outside_ca ev = true)
    (withDomainSigningRequestConfig E domains (λ configpath,
       openssl E ["req"; "-new"; "-config"; configpath;
                  "-key"; keyPath; "-out"; csrFile] ;; ret tt)).
Proof.
  unfold withDomainSigningRequestConfig, withDomainConfig, openssl.
  em_steps; done.
Qed.




(** C5, as the code has it.  After a successful [generateKey] the key
    file carries the mode the number 400 denotes, [0o620]: the owner may
    read and write and the group may write.  That is not owner-read-only
    ([0o400], 256). *)
Theorem generateKey_mode filename s s' t mode content :
  generateKey E filename s = (Ok tt, s', t) →
  fs s' !! filename = Some (File mode content) →
  t = [EvOpenssl ["genrsa"; "-out"; filename; "2048"]; EvChmod filename 400] ∧
  mode = 400 ∧
  owner_read_only mode = false ∧
  group_other_bits mode = 16 ∧
  Z.testbit mode 7 = true.
Proof.
  unfold generateKey, bind, openssl, chmod, call.
  destruct (openssl_run E _ s) as [[out|e] s1]; simpl; [|done].
  destruct (fs s1 !! filename) as [[m c|]|] eqn:Hf; simpl; [| |done].
  - intros [= <- <-]. simpl. rewrite lookup_insert_eq. by intros [= <- <-].
  - intros [= <- <-]. by rewrite Hf.
Qed.

(** *** Removing a domain *)

Lemma revokeDomainCertificate_no_rimraf domains :
  emits (λ ev, ∀ path, ev ≠ EvRimraf path) (revokeDomainCertificate E domains).
Proof.
  unfold revokeDomainCertificate, withCertificateAuthorityCredentials,
    withDomainCertificateConfig, withDomainConfig, openssl.
  em_steps; done.
Qed.

(** C7. Whenever [removeDomain] deletes a directory, the revocation has
    run to completion first: the trace is the acquisition of the CA
    credentials, the [openssl ca -revoke] call on the certificate of the
    domain set, the release, and only then the one [rimraf], on the
    directory of the domain set. *)
Theorem removeDomain_revokes_before_deleting req s r s' t path :
  removeDomain E req s = (r, s', t) →
  EvRimraf path ∈ t →
  let domains := domains_of req in
  let domainPath := getStableDomainPath E domains in
  let domainCertPath := pathForDomain E domainPath ["certificate.crt"] in
  ∃ s1 t1 config caKeyPath caCertPath,
    revokeDomainCertificate E domains s = (Ok tt, s1, t1) ∧
    t1 = [EvAcquireCA; EvWriteConfig CertificateConfig domains;
          EvOpenssl ["ca"; "-config"; config; "-revoke"; domainCertPath;
                     "-keyfile"; caKeyPath; "-cert"; caCertPath];
          EvRemoveConfig config; EvReleaseCA] ∧
    t = t1 ++ [EvRimraf path] ∧
    path = pathForDomain E domainPath [] ∧
    r = Ok tt ∧
    s' = with_fs (rimraf_fs (pathSep E) path) s1.
Proof.
  intros H Hin domains domainPath domainCertPath.
  unfold removeDomain in H. fold domains domainPath in H.
  inv_bind H as a1 s1 t1 t2 Hm.
  { exfalso. pose proof (emits_run _ _ _ _ _ _
      (revokeDomainCertificate_no_rimraf domains) Hm) as Hno.
    rewrite Forall_forall in Hno. by eapply Hno. }
  pose proof (emits_run _ _ _ _ _ _
    (revokeDomainCertificate_no_rimraf domains) Hm) as Hno.
  injection H as <- <- <-. destruct a1.
  apply elem_of_app in Hin as [Hin|Hin].
  { rewrite Forall_forall in Hno. exfalso. by eapply Hno. }
  apply list_elem_of_singleton in Hin as [= ->].
  pose proof Hm as Hrun. unfold revokeDomainCertificate in Hrun.
  apply (scoped_call_runs domains
           (λ config k c, revoke_args config domainCertPath k c)) in Hrun
    as [(e & [=] & _) | (k & c & _ & [(e & [=] & _) |
         (config & [(e & [=] & _) | (_ & ->)])])].
  eexists s1, _, config, k, c. by repeat split.
Qed.

Lemma revokeDomainCertificate_keeps_domains domains s :
  revocation_frame E →
  maintains (keeps_domains E s) (λ _, True) (λ _, True)
    (revokeDomainCertificate E domains).
Proof.
  intros [Hacq Hrel Hwr Hrm Hrev].
  unfold revokeDomainCertificate, withCertificateAuthorityCredentials,
    withDomainCertificateConfig, withDomainConfig, openssl.
  mt_steps.
  - apply mt_call; [done| |done]. intros st Hst.
    eapply keeps_domains_trans; [exact Hst|apply Hacq].
  - apply mt_call; [done| |done]. intros st Hst.
    eapply keeps_domains_trans; [exact Hst|apply Hwr].
  - apply mt_call; [done| |done]. intros st Hst.
    eapply keeps_domains_trans; [exact Hst|apply Hrev].
  - apply mt_call_total; [done| |done]. intros st Hst.
    eapply keeps_domains_trans; [exact Hst|apply Hrm].
  - apply mt_call_total; [done| |done]. intros st Hst.
    eapply keeps_domains_trans; [exact Hst|apply Hrel].
Qed.

(** C10. When [revokeDomainCertificate] raises, [removeDomain] ends with
    the same error in the environment the failed revocation left: no
    [rimraf] has run, and, the revocation machinery working outside the
    [domains] directory, every cached file is as it was. *)
Theorem removeDomain_keeps_files_when_revocation_fails req s e s1 t1 :
  revokeDomainCertificate E (domains_of req) s = (Err e, s1, t1) →
  removeDomain E req s = (Err e, s1, t1) ∧
  (∀ path, EvRimraf path ∉ t1) ∧
  (revocation_frame E → keeps_domains E s s1).
Proof.
  intros Hrev. split; [by apply bind_err|]. split.
  - intros path Hin.
    pose proof (emits_run _ _ _ _ _ _
      (revokeDomainCertificate_no_rimraf _) Hrev) as Hno.
    rewrite Forall_forall in Hno. by eapply Hno.
  - intros frame.
    by destruct (mt_run _ _ _ _ _ _ _ _
         (revokeDomainCertificate_keeps_domains (domains_of req) s frame)
         (keeps_domains_refl E s) Hrev).
Qed.

End Claims.

(** ** The claims on the concrete world *)

Lemma sim_caretakers_frame : caretakers_frame Sim.E.
Proof.
  split; try (intros; apply keeps_domains_refl).
  intros o s p Hp. simpl. unfold Sim.put, with_fs. simpl.
  rewrite !lookup_insert_ne; [done|intros <-; by vm_compute in Hp..].
Qed.

Lemma sim_revocation_frame : revocation_frame Sim.E.
Proof.
  split; try (intros; apply keeps_domains_refl).
  intros cfg crt k c s. simpl. destruct (Sim.is_file s crt); apply keeps_domains_refl.
Qed.

Lemma sim_first_call_run :
  certificateFor Sim.E (One "a.test") Sim.defaults Sim.fresh =
  (Ok {| key := "generated"; cert := "generated"; ca := None; caPath := None |},
   Sim.provisioned,
   (certificateFor Sim.E (One "a.test") Sim.defaults Sim.fresh).2).
Proof. vm_compute. reflexivity. Qed.

Lemma run_eta {X A} (m : M X A) (s : env X) : m s = ((m s).1.1, (m s).1.2, (m s).2).
Proof. by destruct (m s) as [[? ?] ?]. Qed.

Lemma certificateFor_reuses_cached_certificate_witness :
  caretakers_frame Sim.E ∧
  (let second := certificateFor Sim.E (One "a.test") Sim.defaults Sim.provisioned in
   Forall (λ ev, generation_event ev = false) second.2 ∧
   fs second.1.2 !! "/cfg/domains/a.test/certificate.crt" =
   fs Sim.provisioned !! "/cfg/domains/a.test/certificate.crt" ∧
   ∀ r, second.1.1 = Ok r → key r = "generated" ∧ cert r = "generated").
Proof.
  split; [exact sim_caretakers_frame|].
  intros second.
  destruct (certificateFor_reuses_cached_certificate Sim.E sim_caretakers_frame
              (One "a.test")) as [_ Hsecond].
  destruct (Hsecond Sim.defaults Sim.defaults Sim.fresh _ _ _ _ _ _
              sim_first_call_run (run_eta _ _)) as (Hev & _ & Hcert & Hret).
  split; [exact Hev|]. split; [exact Hcert|exact Hret].
Defined.

Lemma stable_path_order_independent_witness :
  ["a.test"; "b.test"] ≡ₚ ["b.test"; "a.test"] ∧
  getStableDomainPath Sim.E ["a.test"; "b.test"] =
  getStableDomainPath Sim.E ["b.test"; "a.test"].
Proof.
  split; [apply perm_swap|].
  apply (stable_path_order_independent Sim.E). apply perm_swap.
Defined.

Lemma certificateFor_rejects_invalid_domain_witness :
  "*.example.com" ≠ "localhost" ∧
  isValidDomain Sim.E "*.example.com" validation_options = false ∧
  ∃ d, certificateFor Sim.E (Many ["a.test"; "*.example.com"]) Sim.defaults Sim.fresh
       = (Err (InvalidDomain d), Sim.fresh, []).
Proof.
  split; [done|]. split; [reflexivity|].
  destruct (certificateFor_rejects_invalid_domain Sim.E) as [Hrej _].
  assert (Hin : "*.example.com" ∈ domains_of (Many ["a.test"; "*.example.com"]))
    by (right; left).
  assert (Hne : "*.example.com" ≠ "localhost") by done.
  destruct (Hrej (Many ["a.test"; "*.example.com"]) Sim.defaults Sim.fresh
              "*.example.com" Hin Hne eq_refl) as (d & _ & _ & _ & Hrun).
  by exists d.
Defined.

(** C4 as stated fails: with the default options, a call made while the
    root CA key exists never runs the repair. *)
Lemma ensureCACertReadable_skipped_by_default :
  ¬ (∀ (req : requested) (options : Options unit) (s : env unit),
       is_Some (fs s !! rootCAKeyPath Sim.E) →
       EvEnsureCAReadable ∈ (certificateFor Sim.E req options s).2).
Proof.
  intros Hclaim.
  specialize (Hclaim (One "a.test") Sim.defaults Sim.provisioned).
  rewrite sim_second_call in Hclaim.
  assert (Hkey : is_Some (fs Sim.provisioned !! rootCAKeyPath Sim.E)).
  { vm_compute. by eexists. }
  apply Hclaim in Hkey. by apply list_elem_of_singleton in Hkey.
Qed.

Lemma ensureCACertReadable_on_request_witness :
  let options := {| getCaBuffer := true; getCaPath := false;
                    skipCertutilInstall := false; skipHostsFile := false;
                    ui := None |} in
  is_Some (fs Sim.provisioned !! rootCAKeyPath Sim.E) ∧
  EvEnsureCAReadable ∈ (certificateFor Sim.E (One "a.test") options Sim.provisioned).2.
Proof.
  intros options.
  assert (Hkey : is_Some (fs Sim.provisioned !! rootCAKeyPath Sim.E)).
  { vm_compute. by eexists. }
  split; [exact Hkey|].
  apply (ensureCACertReadable_on_request Sim.E (One "a.test") options
           Sim.provisioned _ _ _ (run_eta _ _)).
  - constructor; [right; reflexivity|constructor].
  - reflexivity.
  - reflexivity.
  - exact Hkey.
  - reflexivity.
Defined.

Lemma generateKey_mode_witness :
  let filename := "/cfg/domains/a.test/private-key.key" in
  let run := generateKey Sim.E filename Sim.fresh in
  run.1.1 = Ok tt ∧
  fs run.1.2 !! filename = Some (File 400 "generated") ∧
  owner_read_only 400 = false ∧ group_other_bits 400 = 16.
Proof.
  intros filename run.
  assert (Hrun : run.1.1 = Ok tt) by (vm_compute; reflexivity).
  assert (Hfile : fs run.1.2 !! filename = Some (File 400 "generated"))
    by (vm_compute; reflexivity).
  split; [exact Hrun|]. split; [exact Hfile|].
  assert (Heta : generateKey Sim.E filename Sim.fresh = (Ok tt, run.1.2, run.2))
    by (rewrite <- Hrun; apply run_eta).
  destruct (generateKey_mode Sim.E filename Sim.fresh run.1.2 run.2 400 "generated"
              Heta Hfile) as (_ & _ & Hown & Hgrp & _).
  by split.
Defined.

Lemma removeDomain_revokes_before_deleting_witness :
  let run := removeDomain Sim.E (One "a.test") Sim.provisioned in
  EvRimraf "/cfg/domains/a.test" ∈ run.2 ∧
  ∃ t1, (revokeDomainCertificate Sim.E ["a.test"] Sim.provisioned).2 = t1 ∧
        run.2 = t1 ++ [EvRimraf "/cfg/domains/a.test"].
Proof.
  intros run.
  assert (Hin : EvRimraf "/cfg/domains/a.test" ∈ run.2).
  { vm_compute. repeat constructor. }
  split; [exact Hin|].
  destruct (removeDomain_revokes_before_deleting Sim.E (One "a.test")
              Sim.provisioned _ _ _ _ (run_eta _ _) Hin)
    as (s1 & t1 & config & k & c & Hrev & _ & Ht & _).
  exists t1. split; [|exact Ht]. simpl in Hrev. by rewrite Hrev.
Defined.


Lemma positional_caretakers_frame : caretakers_frame SimVariants.positional.
Proof.
  split; try (intros; apply keeps_domains_refl).
  intros o s p Hp. simpl. unfold Sim.put, with_fs. simpl.
  rewrite !lookup_insert_ne; [done|intros <-; by vm_compute in Hp..].
Qed.

Lemma positional_generation_frame : generation_frame SimVariants.positional.
Proof.
  split.
  - intros out s p _ Hne. simpl. by apply lookup_insert_ne.
  - intros config keyPath out s p _ Hne. simpl. by apply lookup_insert_ne.
  - intros config csr out k c s p _ Hne. simpl. by apply lookup_insert_ne.
  - intros s. split; apply keeps_domains_refl.
  - intros k ds path s. split; apply keeps_domains_refl.
Qed.

Lemma hasCertificateFor_before_and_after_witness :
  let E := SimVariants.positional in
  let other := certificateFor E (One "b.test") Sim.defaults Sim.fresh in
  let own := certificateFor E (One "a.test") Sim.defaults other.1.2 in
  hasCertificateFor E (One "a.test") Sim.fresh = (Ok false, Sim.fresh, []) ∧
  (hasCertificateFor E (One "a.test") other.1.2).1.1 = Ok false ∧
  hasCertificateFor E (One "a.test") own.1.2 = (Ok true, own.1.2, []).
Proof.
  intros E other own.
  destruct (hasCertificateFor_before_and_after E (One "a.test"))
    as (Hbefore & Hkeep & Hafter).
  assert (H0 : hasCertificateFor E (One "a.test") Sim.fresh = (Ok false, Sim.fresh, [])).
  { apply Hbefore. intros p _. apply lookup_empty. }
  split; [exact H0|]. split.
  - unfold other.
    rewrite (Hkeep positional_caretakers_frame positional_generation_frame
               (One "b.test") Sim.defaults Sim.fresh _ _ _ (run_eta _ _));
      [by rewrite H0|vm_compute; reflexivity].
  - assert (Hr : own.1.1 = Ok {| key := "key"; cert := "crt"; ca := None;
                                 caPath := None |}) by (vm_compute; reflexivity).
    apply (Hafter Sim.defaults other.1.2
             {| key := "key"; cert := "crt"; ca := None; caPath := None |} _ own.2).
    rewrite <- Hr. apply run_eta.
Defined.

(** C9 as stated fails: [hasCertificateFor] validates nothing and answers
    by path, so after [a.test] and [b.test] were provisioned together it
    answers true for the single name [a.test,b.test], a domain set for
    which [certificateFor] was never called. *)
Lemma hasCertificateFor_true_for_unprovisioned_set :
  ¬ (∀ (req req' : requested) (options : Options unit) r s' t,
       ¬ (domains_of req ≡ₚ domains_of req') →
       certificateFor Sim.E req' options Sim.fresh = (Ok r, s', t) →
       hasCertificateFor Sim.E req s' = (Ok false, s', [])).
Proof.
  intros Hclaim.
  set (run := certificateFor Sim.E (Many ["a.test"; "b.test"]) Sim.defaults Sim.fresh).
  assert (Hr : run.1.1 = Ok {| key := "generated"; cert := "generated";
                               ca := None; caPath := None |})
    by (vm_compute; reflexivity).
  specialize (Hclaim (One "a.test,b.test") (Many ["a.test"; "b.test"]) Sim.defaults
                {| key := "generated"; cert := "generated"; ca := None; caPath := None |}
                run.1.2 run.2).
  assert (Hhas : (hasCertificateFor Sim.E (One "a.test,b.test") run.1.2).1.1 = Ok true)
    by (vm_compute; reflexivity).
  rewrite Hclaim in Hhas; [done| |].
  - by intros Hp%Permutation_length.
  - rewrite <- Hr. apply run_eta.
Qed.

(** C6 as stated fails: a parse failure need not raise.  With a parser
    that answers [NaN] for a date it cannot read, [caExpiryInDays] returns
    [NaN], not [-1]. *)
Lemma expiry_unparseable_is_not_minus_one :
  ¬ (∀ (E : externals unit unit) (s : env unit) out s1,
       openssl_run E (expiry_args (rootCACertPath E)) s = (Returned out, s1) →
       parseOpenSSLExpiryData_run E (trim out) s1 = Returned NaN →
       (caExpiryInDays E s).1.1 = Ok (Num (-1))).
Proof.
  intros Hclaim.
  specialize (Hclaim SimVariants.positional Sim.fresh "notAfter=garbage" Sim.fresh
                eq_refl eq_refl).
  vm_compute in Hclaim. discriminate.
Qed.

Lemma removeDomain_keeps_files_when_revocation_fails_witness :
  let e := Thrown (ExternalToolError "unable to load certificate") in
  let t1 := (revokeDomainCertificate Sim.E ["a.test"] Sim.fresh).2 in
  revokeDomainCertificate Sim.E ["a.test"] Sim.fresh = (Err e, Sim.fresh, t1) ∧
  removeDomain Sim.E (One "a.test") Sim.fresh = (Err e, Sim.fresh, t1) ∧
  keeps_domains Sim.E Sim.fresh Sim.fresh.
Proof.
  intros e t1.
  assert (Hrev : revokeDomainCertificate Sim.E (domains_of (One "a.test")) Sim.fresh
                 = (Err e, Sim.fresh, t1)) by (vm_compute; reflexivity).
  split; [exact Hrev|].
  destruct (removeDomain_keeps_files_when_revocation_fails Sim.E (One "a.test")
              Sim.fresh e Sim.fresh t1 Hrev) as (Hrun & _ & Hkeep).
  split; [exact Hrun|]. exact (Hkeep sim_revocation_frame).
Defined.

(** ** Following a run of [certificateFor] stage by stage *)

Section Stage_facts.
Context {X U : Type} (E : externals X U).
Implicit Types (s : env X) (options : Options U) (req : requested).

Lemma bind_assoc {A B C} (m : M X A) (k : A → M X B) (h : B → M X C) s :
  bind (bind m k) h s = bind m (λ a, bind (k a) h) s.
Proof.
  unfold bind. destruct (m s) as [[[a|e] s1] t1]; [|done].
  destruct (k a s1) as [[[b|e] s2] t2]; [|done].
  destruct (h b s2) as [[r s3] t3]. by rewrite app_assoc.
Qed.

Lemma validate_inv domains s r s' t :
  validate E domains s = (r, s', t) →
  s' = s ∧ t = [] ∧
  ((r = Ok tt ∧ Forall (λ d, rejected E d = false) domains) ∨
   ∃ l1 d l2, domains = l1 ++ d :: l2 ∧
              Forall (λ d', rejected E d' = false) l1 ∧
              rejected E d = true ∧ r = Err (InvalidDomain d)).
Proof.
  revert r s' t. induction domains as [|x l IH]; intros r s' t.
  - intros [= <- <- <-]. repeat split. left. by split.
  - unfold validate in *. simpl. destruct (rejected E x) eqn:Hx.
    + intros [= <- <- <-]. repeat split. right.
      exists [], x, l. by repeat split.
    + rewrite (bind_pure _ _ s tt) by done. intros H.
      destruct (IH _ _ _ H) as (-> & -> & [[-> Hall] | (l1 & d & l2 & -> & Hl1 & Hd & ->)]).
      * repeat split. left. split; [done|]. by constructor.
      * repeat split. right. exists (x :: l1), d, l2.
        repeat split; try done. by constructor.
Qed.

Lemma hosts_run domains s :
  forEach (addDomainToHostFileIfMissing E) domains s =
  (Ok tt, foldl (λ s' d, addDomainToHostFileIfMissing_run E d s') s domains,
   map EvHostsFile domains).
Proof.
  revert s. induction domains as [|d l IH]; intros s; [done|].
  simpl. unfold bind at 1. simpl. by rewrite IH.
Qed.

Lemma hosts_stage_run options domains s :
  (if negb (skipHostsFile options)
   then forEach (addDomainToHostFileIfMissing E) domains else ret tt) s =
  (Ok tt, after_hosts E options domains s, hosts_events options domains).
Proof.
  unfold after_hosts, hosts_events. destruct (skipHostsFile options); simpl; [done|].
  apply hosts_run.
Qed.

Lemma read_stage_pure domains options s r s' t :
  read_stage E domains options s = (r, s', t) → s' = s ∧ t = [].
Proof.
  unfold read_stage, readFile, query, bind, ret.
  repeat (destruct (fs s !! _) as [[? ?|]|]; simpl);
    destruct (getCaBuffer options); simpl;
    repeat (destruct (fs s !! _) as [[? ?|]|]; simpl);
    by intros [= <- <- <-].
Qed.

Lemma ca_stage_run options s :
  ca_stage E options s =
  if bool_decide (is_Some (fs s !! rootCAKeyPath E))
  then (if getCaBuffer options || getCaPath options
        then ensureCACertReadable E options s else (Ok tt, s, []))
  else installCertificateAuthority E options s.
Proof.
  unfold ca_stage. rewrite (bind_pure _ _ s _ (eq_refl : exists_ _ s = _)).
  destruct (bool_decide _); simpl; [|done].
  by destruct (getCaBuffer options || getCaPath options).
Qed.

Lemma ui_stage_run options s :
  match ui options with
  | Some hooks => call_total [EvAssignUI] (assign_ui E hooks)
  | None => ret tt
  end s = (Ok tt, after_ui E options s, ui_events options).
Proof. unfold after_ui, ui_events. by destruct (ui options). Qed.

(** Every run of [certificateFor] stops at the validation, at the platform
    check, at the [openssl] lookup, or goes on with the CA stage and the
    issue stage in the environment the UI hooks left. *)
Lemma certificateFor_stages req options s r s' t :
  certificateFor E req options s = (r, s', t) →
  let domains := domains_of req in
  let s1 := after_ui E options s in
  (∃ d, validate E domains s = (Err (InvalidDomain d), s, []) ∧
        r = Err (InvalidDomain d) ∧ s' = s ∧ t = []) ∨
  (Forall (λ d, rejected E d = false) domains ∧
   ((supported E = false ∧ r = Err PlatformNotSupported ∧
     s' = s1 ∧ t = ui_events options) ∨
    (supported E = true ∧ commandExists E "openssl" s1 = false ∧
     r = Err OpenSSLNotFound ∧ s' = s1 ∧ t = ui_events options) ∨
    (supported E = true ∧ commandExists E "openssl" s1 = true ∧
     ∃ t2, (ca_stage E options ;; issue_stage E domains options) s1 = (r, s', t2) ∧
           t = ui_events options ++ t2))).
Proof.
  intros H domains s1. unfold certificateFor in H. fold domains in H.
  inv_bind H as a1 s2 t1 t2 Hm.
  { destruct (validate_inv _ _ _ _ _ Hm) as (-> & -> & [[[=] _] | (l1 & d & l2 & _ & _ & _ & [= ->])]).
    left. exists d. by rewrite Hm. }
  destruct (validate_inv _ _ _ _ _ Hm) as (-> & -> & [[_ Hall] | (l1 & d & l2 & _ & _ & _ & [=])]).
  right. split; [exact Hall|]. simpl. clear Hm.
  inv_bind H as a2 s3 t3 t4 Hm; rewrite ui_stage_run in Hm; [done|].
  injection Hm as ? ? ?. subst a2 s3 t3. fold s1 in H.
  unfold supported.
  destruct (isMac E), (isLinux E), (isWindows E); simpl in H;
    try (rewrite (bind_err _ _ s1 PlatformNotSupported s1 []) in H by done;
         injection H as ? ? ?; subst r s' t4; left; by rewrite app_nil_r).
  all: right; simpl.
  all: rewrite (bind_pure _ _ s1 tt) in H by done.
  all: rewrite (bind_pure _ _ s1 (commandExists E "openssl" s1)) in H by done.
  all: destruct (commandExists E "openssl" s1) eqn:Hcmd; simpl in H;
    [right; split; [done|]; split; [done|]
    |left; rewrite (bind_err _ _ s1 OpenSSLNotFound s1 []) in H by done;
     injection H as ? ? ?; subst r s' t4; by rewrite app_nil_r].
  all: rewrite (bind_pure _ _ s1 tt) in H by done.
  all: exists t4; split; [|done].
  all: rewrite <- H; unfold ca_stage; by rewrite bind_assoc.
Qed.

Lemma issue_stage_inv domains options s r s' t :
  issue_stage E domains options s = (r, s', t) →
  let certPath := pathForDomain E (getStableDomainPath E domains) ["certificate.crt"] in
  ∃ rg s3 tg,
    (if bool_decide (is_Some (fs s !! certPath))
     then (rg, s3, tg) = (Ok tt, s, [])
     else generateDomainCertificate E domains s = (rg, s3, tg)) ∧
    ((∃ e, rg = Err e ∧ r = Err e ∧ s' = s3 ∧ t = tg) ∨
     (rg = Ok tt ∧ s' = after_hosts E options domains s3 ∧
      t = tg ++ hosts_events options domains ∧
      read_stage E domains options s' = (r, s', []))).
Proof.
  intros H certPath. unfold issue_stage in H. fold certPath in H.
  rewrite (bind_pure _ _ s _ (eq_refl : exists_ certPath s = _)) in H.
  destruct (bool_decide (is_Some (fs s !! certPath))); simpl in H.
  - exists (Ok tt), s, []. split; [done|]. right.
    rewrite (bind_pure _ _ s tt) in H by done.
    rewrite (bind_step _ _ _ _ _ _ (hosts_stage_run options domains s)) in H.
    destruct (read_stage E domains options (after_hosts E options domains s))
      as [[r1 s4] t4] eqn:Hread.
    destruct (read_stage_pure _ _ _ _ _ _ Hread) as [-> ->].
    injection H as <- <- <-. by rewrite app_nil_r.
  - inv_bind H as a1 s3 tg t2 Hm.
    { exists (Err e), s', t. split; [done|]. left. eauto. }
    destruct a1. exists (Ok tt), s3, tg. split; [done|]. right.
    rewrite (bind_step _ _ _ _ _ _ (hosts_stage_run options domains s3)) in H.
    destruct (read_stage E domains options (after_hosts E options domains s3))
      as [[r1 s4] t4] eqn:Hread.
    destruct (read_stage_pure _ _ _ _ _ _ Hread) as [-> ->].
    injection H as <- <- <-. by rewrite app_nil_r.
Qed.

Lemma generateDomainCertificate_emits domains :
  emits (λ ev, generation_event ev = true) (generateDomainCertificate E domains).
Proof.
  unfold generateDomainCertificate, generateKey, withDomainSigningRequestConfig,
    withDomainCertificateConfig, withDomainConfig,
    withCertificateAuthorityCredentials, openssl, mkdirp, chmod.
  em_steps; done.
Qed.

Lemma issue_stage_emits domains options :
  emits (λ ev, generation_event ev = true ∨ is_hosts_event ev = true)
    (issue_stage E domains options).
Proof.
  unfold issue_stage, read_stage, generateDomainCertificate, generateKey,
    withDomainSigningRequestConfig, withDomainCertificateConfig, withDomainConfig,
    withCertificateAuthorityCredentials, openssl, mkdirp, chmod,
    addDomainToHostFileIfMissing, readFile, exists_.
  em_steps; auto.
Qed.

(** A run of [generateDomainCertificate] either stops before the CA is
    touched, or has made the directory, the key and the signing request
    and goes on with the signing call under the CA credentials. *)
Lemma generateDomainCertificate_prefix domains s r s' t :
  generateDomainCertificate E domains s = (r, s', t) →
  let domainPath := getStableDomainPath E domains in
  let domainKeyPath := pathForDomain E domainPath ["private-key.key"] in
  let csrFile := pathForDomain E domainPath ["certificate-signing-request.csr"] in
  let domainCertPath := pathForDomain E domainPath ["certificate.crt"] in
  ((∃ e, r = Err e) ∧ Forall (λ ev, outside_ca ev = true) t) ∨
  ∃ csrConfig s1 t2,
    t = [EvMkdirp (pathForDomain E domainPath []);
         EvOpenssl ["genrsa"; "-out"; domainKeyPath; "2048"];
         EvChmod domainKeyPath 400;
         EvWriteConfig SigningRequestConfig domains;
         EvOpenssl ["req"; "-new"; "-config"; csrConfig; "-key"; domainKeyPath;
                    "-out"; csrFile];
         EvRemoveConfig csrConfig] ++ t2 ∧
    withCertificateAuthorityCredentials E (λ '(caKeyPath, caCertPath),
      withDomainCertificateConfig E domains (λ config,
        openssl E (sign_args config csrFile domainCertPath
                     caKeyPath caCertPath) ;; ret tt)) s1 = (r, s', t2).
Proof.
  intros H domainPath domainKeyPath csrFile domainCertPath.
  unfold generateDomainCertificate in H.
  fold domainPath domainKeyPath csrFile domainCertPath in H.
  pose proof (λ p s r s' t,
    emits_run _ _ s r s' t (mkdirp_outside_ca (X:=X) p)) as Hdir.
  pose proof (λ f s r s' t,
    emits_run _ _ s r s' t (generateKey_outside_ca E f)) as Hkey.
  pose proof (λ k c s r s' t,
    emits_run _ _ s r s' t (signing_request_outside_ca E domains k c)) as Hcsr.
  inv_bind H as a1 s1 t1 t2 Hm.
  { left. eauto. }
  inv_bind H as a2 s2 t3 t4 Hm2.
  { left. rewrite Forall_app. eauto 10. }
  inv_bind H as a3 s3 t5 t6 Hm3.
  { left. rewrite !Forall_app. eauto 10. }
  right.
  assert (t1 = [EvMkdirp (pathForDomain E domainPath [])]) as ->.
  { unfold mkdirp, call in Hm. destruct (fs s !! _) as [[? ?|]|]; by injection Hm. }
  assert (t3 = [EvOpenssl ["genrsa"; "-out"; domainKeyPath; "2048"];
                EvChmod domainKeyPath 400]) as ->.
  { clear -Hm2. unfold generateKey, bind, openssl, chmod, call in Hm2.
    destruct (openssl_run E _ s1) as [[?|?] s4]; simpl in Hm2; [|done].
    destruct (fs s4 !! _) as [[? ?|]|]; by injection Hm2. }
  assert (∃ csrConfig, t5 =
    [EvWriteConfig SigningRequestConfig domains;
     EvOpenssl ["req"; "-new"; "-config"; csrConfig; "-key"; domainKeyPath;
                "-out"; csrFile];
     EvRemoveConfig csrConfig]) as [csrConfig ->].
  { clear -Hm3. unfold withDomainSigningRequestConfig, withDomainConfig, bind,
      openssl, call, call_total, ret in Hm3.
    destruct (write_config E _ _ s2) as [[cfg|?] s4]; simpl in Hm3; [|done].
    destruct (openssl_run E _ s4) as [[?|?] s5]; simpl in Hm3; [|done].
    exists cfg. by injection Hm3. }
  exists csrConfig, s3, t6. split; [done|exact H].
Qed.

Lemma generateDomainCertificate_ok_trace domains s s' t :
  generateDomainCertificate E domains s = (Ok tt, s', t) →
  ∃ csrConfig certConfig caKeyPath caCertPath,
    t = generation_trace E domains csrConfig certConfig caKeyPath caCertPath.
Proof.
  intros [[[e [=]] _] | (csrConfig & s1 & t2 & -> & H)]%generateDomainCertificate_prefix.
  apply (scoped_call_runs E domains (λ config k c, sign_args config _ _ k c)) in H
    as [(e & [=] & _) | (k & c & _ & [(e & [=] & _) |
         (config & [(e & [=] & _) | (_ & ->)])])].
  by exists csrConfig, config, k, c.
Qed.

End Stage_facts.

(** ** Further properties of the code *)

Section Extras.
Context {X U : Type} (E : externals X U).
Implicit Types (s : env X) (options : Options U) (req : requested).

Lemma rejected_false_acceptable domain :
  rejected E domain = false ↔ acceptable E domain.
Proof.
  split; [|apply acceptable_not_rejected].
  unfold rejected, acceptable. intros H.
  apply andb_false_iff in H as [H|H]; apply negb_false_iff in H.
  - left. by apply String.eqb_eq.
  - by right.
Qed.

Lemma stages_never_invalid domains options :
  never_invalid (ca_stage E options ;; issue_stage E domains options).
Proof.
  unfold ca_stage, issue_stage, read_stage, exists_, readFile,
    installCertificateAuthority, ensureCACertReadable,
    addDomainToHostFileIfMissing.
  ni_steps; apply generateDomainCertificate_never_invalid.
Qed.

(** *** Fail-fast checks *)

(** X1. On a platform that is neither macOS, Linux nor Windows a request
    with acceptable domains fails with the platform error: the UI hooks of
    the options are installed by then, and nothing else has happened. *)
Theorem certificateFor_unsupported_platform req options s :
  Forall (acceptable E) (domains_of req) →
  supported E = false →
  certificateFor E req options s =
  (Err PlatformNotSupported, after_ui E options s, ui_events options).
Proof.
  intros Hall Hsup. destruct (certificateFor E req options s) as [[r s'] t] eqn:H.
  apply certificateFor_stages in H
    as [(d & Hv & _) | (_ & [(_ & -> & -> & ->) | [(Hs & _) | (Hs & _)]])];
    [|done|congruence..].
  by rewrite (validate_accepts E _ s Hall) in Hv.
Qed.

(** X2. When the [openssl] binary is not found, a request with acceptable
    domains on a supported platform fails with the OpenSSL error before the
    CA is looked at: no install, no repair, no generation, no hosts-file
    update. *)
Theorem certificateFor_openssl_missing req options s :
  Forall (acceptable E) (domains_of req) →
  supported E = true →
  commandExists E "openssl" (after_ui E options s) = false →
  certificateFor E req options s =
  (Err OpenSSLNotFound, after_ui E options s, ui_events options).
Proof.
  intros Hall Hsup Hcmd.
  destruct (certificateFor E req options s) as [[r s'] t] eqn:H.
  apply certificateFor_stages in H
    as [(d & Hv & _) | (_ & [(Hs & _) | [(_ & _ & -> & -> & ->) | (_ & Hc & _)]])];
    [|congruence|done|congruence].
  by rewrite (validate_accepts E _ s Hall) in Hv.
Qed.

(** X3. An invalid-domain error names the first domain of the request, in
    the order given, that is not "localhost" and that [isValidDomain]
    refuses: every domain listed before it is acceptable. *)
Theorem certificateFor_reports_first_invalid_domain req options s d :
  (certificateFor E req options s).1.1 = Err (InvalidDomain d) →
  ∃ before after,
    domains_of req = before ++ d :: after ∧
    Forall (acceptable E) before ∧
    d ≠ "localhost" ∧
    isValidDomain E d validation_options = false.
Proof.
  intros Hr. pose proof (run_eta (certificateFor E req options) s) as H.
  rewrite Hr in H.
  apply certificateFor_stages in H
    as [(d' & Hv & [= ->] & _) | (_ & [(_ & [=] & _) | [(_ & _ & [=] & _) |
         (_ & _ & t2 & H & _)]])].
  - apply validate_inv in Hv
      as (_ & _ & [[[=] _] | (l1 & d0 & l2 & Hd & Hl1 & Hrej & [= ->])]).
    exists l1, l2. split; [done|]. split.
    + eapply Forall_impl; [exact Hl1|]. intros x. apply rejected_false_acceptable.
    + unfold rejected in Hrej. apply andb_true_iff in Hrej as [Hl Hi].
      apply negb_true_iff in Hl, Hi. by apply String.eqb_neq in Hl.
  - exfalso. pose proof (stages_never_invalid (domains_of req) options
                           (after_ui E options s) d) as Hni.
    by rewrite H in Hni.
Qed.

(** *** The CA stage *)

Lemma ui_events_only options ev : ev ∈ ui_events options → ev = EvAssignUI.
Proof.
  unfold ui_events. destruct (ui options); [|by intros ?%elem_of_nil].
  by intros ->%list_elem_of_singleton.
Qed.

Lemma issue_stage_no_ca_event domains options s r s' t ev :
  issue_stage E domains options s = (r, s', t) →
  ev ∈ t → generation_event ev = true ∨ is_hosts_event ev = true.
Proof.
  intros H Hin.
  pose proof (emits_run _ _ _ _ _ _ (issue_stage_emits E domains options) H) as Hall.
  rewrite Forall_forall in Hall. by apply Hall.
Qed.

Lemma install_run options s :
  ∃ o s2, installCertificateAuthority_run E options s = (o, s2) ∧
          installCertificateAuthority E options s = (to_result o, s2, [EvInstallCA]).
Proof.
  unfold installCertificateAuthority, call.
  destruct (installCertificateAuthority_run E options s) as [o s2]. by exists o, s2.
Qed.

Lemma ensure_run options s :
  ∃ o s2, ensureCACertReadable_run E options s = (o, s2) ∧
          ensureCACertReadable E options s = (to_result o, s2, [EvEnsureCAReadable]).
Proof.
  unfold ensureCACertReadable, call.
  destruct (ensureCACertReadable_run E options s) as [o s2]. by exists o, s2.
Qed.

(** The CA stage emits at most one event: the install on a first run, the
    repair on request, nothing otherwise. *)
Lemma ca_stage_inv options s r s' t :
  ca_stage E options s = (r, s', t) →
  (fs s !! rootCAKeyPath E = None ∧ t = [EvInstallCA] ∧
   ∃ o, installCertificateAuthority_run E options s = (o, s') ∧ r = to_result o) ∨
  (is_Some (fs s !! rootCAKeyPath E) ∧
   getCaBuffer options || getCaPath options = true ∧ t = [EvEnsureCAReadable] ∧
   ∃ o, ensureCACertReadable_run E options s = (o, s') ∧ r = to_result o) ∨
  (is_Some (fs s !! rootCAKeyPath E) ∧
   getCaBuffer options || getCaPath options = false ∧
   t = [] ∧ s' = s ∧ r = Ok tt).
Proof.
  rewrite ca_stage_run.
  destruct (fs s !! rootCAKeyPath E) as [n|] eqn:Hkey.
  - rewrite bool_decide_eq_true_2 by eauto.
    destruct (getCaBuffer options || getCaPath options).
    + destruct (ensure_run options s) as (o & s2 & Ho & ->).
      intros [= <- <- <-]. right. left. eauto 10.
    + intros [= <- <- <-]. right. right. eauto 10.
  - rewrite bool_decide_eq_false_2 by (by intros [? ?]).
    destruct (install_run options s) as (o & s2 & Ho & ->).
    intros [= <- <- <-]. left. eauto 10.
Qed.

(** X4. [certificateFor] installs the CA exactly on a first run.  An
    install event appears only when the root CA key is missing once the UI
    hooks are in place; it is then the first thing the call does after the
    hooks, it happens once, and the repair is not run in the same call.
    Conversely, when the checks pass and the key is missing, the install is
    run. *)
Theorem certificateFor_first_run_installs req options s r s' t :
  certificateFor E req options s = (r, s', t) →
  let s1 := after_ui E options s in
  (EvInstallCA ∈ t →
     fs s1 !! rootCAKeyPath E = None ∧
     ∃ t2, t = ui_events options ++ (EvInstallCA :: t2) ∧
           (EvInstallCA ∉ t2) ∧ (EvEnsureCAReadable ∉ t2)) ∧
  (Forall (acceptable E) (domains_of req) →
   supported E = true →
   commandExists E "openssl" s1 = true →
   fs s1 !! rootCAKeyPath E = None →
   EvInstallCA ∈ t).
Proof.
  intros H s1. subst s1.
  assert (Hui : EvInstallCA ∉ ui_events options).
  { by intros [=]%ui_events_only. }
  apply certificateFor_stages in H
    as [(d & Hv & -> & -> & ->) | (Hacc & [(Hs & -> & -> & ->) |
         [(Hs & Hc & -> & -> & ->) | (Hs & Hc & t2 & H & ->)]])].
  - split; [by intros ?%elem_of_nil|].
    intros Hall. by rewrite (validate_accepts E _ s Hall) in Hv.
  - split; [done|congruence].
  - split; [done|congruence].
  - inv_bind H as a1 s2 t1 t3 Hm; apply ca_stage_inv in Hm
      as [(Hkey & -> & _) | [(Hkey & _ & -> & _) | (Hkey & _ & -> & _)]].
    + split; [|intros; rewrite elem_of_app; right; by left].
      intros _. split; [done|]. exists []. split; [done|].
      split; apply not_elem_of_nil.
    + split; [|intros _ _ _ Hnone; rewrite Hnone in Hkey; by destruct Hkey].
      intros [?|Hin]%elem_of_app; [done|].
      by apply list_elem_of_singleton in Hin.
    + split; [|intros _ _ _ Hnone; rewrite Hnone in Hkey; by destruct Hkey].
      intros [?|Hin]%elem_of_app; [done|]. by apply elem_of_nil in Hin.
    + split; [|intros; rewrite !elem_of_app; right; left; by left].
      intros _. split; [done|]. exists t3. split; [done|].
      split; intros Hin; by destruct (issue_stage_no_ca_event _ _ _ _ _ _ _ H Hin).
    + split; [|intros _ _ _ Hnone; rewrite Hnone in Hkey; by destruct Hkey].
      intros [?|[Hin|Hin]%elem_of_app]%elem_of_app; [done| |].
      * by apply list_elem_of_singleton in Hin.
      * by destruct (issue_stage_no_ca_event _ _ _ _ _ _ _ H Hin).
    + split; [|intros _ _ _ Hnone; rewrite Hnone in Hkey; by destruct Hkey].
      intros [?|[Hin|Hin]%elem_of_app]%elem_of_app; [done| |].
      * by apply elem_of_nil in Hin.
      * by destruct (issue_stage_no_ca_event _ _ _ _ _ _ _ H Hin).
Qed.

(** X5. A failure of the CA stage is fatal.  When the install of a first
    run raises, or the repair requested through the options raises,
    [certificateFor] ends with that error in the environment the failed
    call left: nothing is generated, the hosts file is not touched and
    nothing is read back. *)
Theorem certificateFor_ca_failure_is_fatal req options s e s2 :
  Forall (acceptable E) (domains_of req) →
  supported E = true →
  commandExists E "openssl" (after_ui E options s) = true →
  (fs (after_ui E options s) !! rootCAKeyPath E = None →
   installCertificateAuthority_run E options (after_ui E options s) = (Raised e, s2) →
   certificateFor E req options s =
   (Err (Thrown e), s2, ui_events options ++ [EvInstallCA])) ∧
  (is_Some (fs (after_ui E options s) !! rootCAKeyPath E) →
   getCaBuffer options || getCaPath options = true →
   ensureCACertReadable_run E options (after_ui E options s) = (Raised e, s2) →
   certificateFor E req options s =
   (Err (Thrown e), s2, ui_events options ++ [EvEnsureCAReadable])).
Proof.
  intros Hall Hsup Hcmd.
  destruct (certificateFor E req options s) as [[r s'] t] eqn:H.
  apply certificateFor_stages in H
    as [(d & Hv & _) | (_ & [(Hs & _) | [(_ & Hc & _) | (_ & _ & t2 & H & ->)]])];
    [|congruence..|].
  2: set (s1 := after_ui E options s) in *.
  { by rewrite (validate_accepts E _ s Hall) in Hv. }
  split.
  - intros Hkey Hrun.
    rewrite (bind_err _ _ s1 (Thrown e) s2 [EvInstallCA]) in H; [by injection H as <- <- <-|].
    rewrite ca_stage_run, Hkey, bool_decide_eq_false_2 by (by intros [? ?]).
    unfold installCertificateAuthority, call. by rewrite Hrun.
  - intros Hkey Hflags Hrun.
    rewrite (bind_err _ _ s1 (Thrown e) s2 [EvEnsureCAReadable]) in H;
      [by injection H as <- <- <-|].
    rewrite ca_stage_run, bool_decide_eq_true_2, Hflags by done.
    unfold ensureCACertReadable, call. by rewrite Hrun.
Qed.


(** *** The issue stage *)

Lemma ui_events_not_generation options :
  Forall (λ ev, generation_event ev = false) (ui_events options).
Proof. unfold ui_events. destruct (ui options); by repeat constructor. Qed.

Lemma ui_events_not_hosts options :
  Forall (λ ev, is_hosts_event ev = false) (ui_events options).
Proof. unfold ui_events. destruct (ui options); by repeat constructor. Qed.

Lemma after_ui_keeps options s :
  caretakers_frame E → keeps_domains E s (after_ui E options s).
Proof.
  intros frame. unfold after_ui. destruct (ui options).
  - apply (ui_frame E frame).
  - apply keeps_domains_refl.
Qed.

Lemma ca_stage_keeps options s r s' t :
  caretakers_frame E → ca_stage E options s = (r, s', t) →
  keeps_domains E s s' ∧
  Forall (λ ev, generation_event ev = false) t ∧
  Forall (λ ev, is_hosts_event ev = false) t.
Proof.
  intros frame [(_ & -> & o & Ho & _) | [(_ & _ & -> & o & Ho & _) |
    (_ & _ & -> & -> & _)]]%ca_stage_inv.
  - split; [|by split; repeat constructor].
    pose proof (install_frame E frame options s) as Hk. by rewrite Ho in Hk.
  - split; [|by split; repeat constructor].
    pose proof (ensure_frame E frame options s) as Hk. by rewrite Ho in Hk.
  - split; [apply keeps_domains_refl|by split].
Qed.

Lemma certificateFor_absent_run req options s r s' t :
  caretakers_frame E →
  fs s !! pathForDomain E (getStableDomainPath E (domains_of req))
            ["certificate.crt"] = None →
  certificateFor E req options s = (Ok r, s', t) →
  ∃ t0 csrConfig certConfig caKeyPath caCertPath,
    t = t0 ++ generation_trace E (domains_of req) csrConfig certConfig
                caKeyPath caCertPath
           ++ hosts_events options (domains_of req) ∧
    Forall (λ ev, generation_event ev = false) t0.
Proof.
  intros frame Hnone H.
  apply certificateFor_stages in H
    as [(d & _ & [=] & _) | (_ & [(_ & [=] & _) | [(_ & _ & [=] & _) |
         (_ & _ & t2 & H & ->)]])].
  apply bind_ok in H as (a1 & s2 & t1 & t3 & Hm & H & ->).
  destruct (ca_stage_keeps _ _ _ _ _ frame Hm) as (Hkeep & Hgen & _).
  apply issue_stage_inv in H as (rg & s3 & tg & Hgenerate &
    [(e & _ & [=] & _) | (-> & _ & -> & _)]).
  assert (Hnone2 : fs s2 !! pathForDomain E (getStableDomainPath E (domains_of req))
                     ["certificate.crt"] = None).
  { rewrite (Hkeep _ (pathForDomain_under E _ _ _)).
    by rewrite (after_ui_keeps options s frame _ (pathForDomain_under E _ _ _)). }
  rewrite Hnone2, bool_decide_eq_false_2 in Hgenerate by (by intros [? ?]).
  apply generateDomainCertificate_ok_trace in Hgenerate
    as (csrConfig & certConfig & k & c & ->).
  exists (ui_events options ++ t1), csrConfig, certConfig, k, c.
  split; [by rewrite <- !app_assoc|].
  apply Forall_app. split; [apply ui_events_not_generation|done].
Qed.

(** X6. When the CA manager, the platform layer and the UI registry leave
    the [domains] directory alone, a successful [certificateFor] made while
    no [certificate.crt] exists for the domain set runs the complete
    generation once, after whatever the UI and CA stages did and before the
    hosts-file updates: directory, key with its [chmod], signing request,
    and the signing call under the CA credentials. *)
Theorem certificateFor_generates_when_absent :
  caretakers_frame E →
  ∀ req options s r s' t,
    hasCertificateFor E req s = (Ok false, s, []) →
    certificateFor E req options s = (Ok r, s', t) →
    ∃ t0 csrConfig certConfig caKeyPath caCertPath,
      t = t0 ++ generation_trace E (domains_of req) csrConfig certConfig
                  caKeyPath caCertPath
             ++ hosts_events options (domains_of req) ∧
      Forall (λ ev, generation_event ev = false) t0.
Proof.
  intros frame req options s r s' t Hhas H.
  apply (certificateFor_absent_run req options s r s' t frame); [|exact H].
  unfold hasCertificateFor in Hhas. rewrite exists_run in Hhas.
  injection Hhas as Hb. apply bool_decide_eq_false in Hb.
  by apply eq_None_not_Some.
Qed.

(** X7. The cache ignores the order of the request.  Under the same
    assumption as X6, once [certificateFor] has succeeded for a list of
    domains, a call for any permutation of that list generates nothing and,
    when it succeeds, returns the key and certificate of the first call. *)
Theorem certificateFor_cache_ignores_order :
  caretakers_frame E →
  ∀ req req' o1 o2 s0 r1 s1 t1 r2 s2 t2,
    domains_of req ≡ₚ domains_of req' →
    certificateFor E req o1 s0 = (Ok r1, s1, t1) →
    certificateFor E req' o2 s1 = (r2, s2, t2) →
    Forall (λ ev, generation_event ev = false) t2 ∧
    ∀ r, r2 = Ok r → key r = key r1 ∧ cert r = cert r1.
Proof.
  intros frame req req' o1 o2 s0 r1 s1 t1 r2 s2 t2 Hperm Hfirst Hsecond.
  pose proof (getStableDomainPath_perm E _ _ Hperm) as Hpath.
  destruct (certificateFor_ok E _ _ _ _ _ _ Hfirst) as [[mk Hk1] [mc Hc1]].
  rewrite Hpath in Hk1, Hc1.
  destruct (mt_run _ _ _ _ _ _ _ _
              (certificateFor_cached E frame req' s1 o2 (mk_is_Some _ _ Hc1))
              (keeps_domains_refl E s1) Hsecond) as [Hkeep Hev].
  split; [exact Hev|]. intros r ->.
  destruct (certificateFor_ok E _ _ _ _ _ _ Hsecond) as [[mk' Hk2] [mc' Hc2]].
  rewrite (Hkeep _ (pathForDomain_under E _ _ _)) in Hk2.
  rewrite (Hkeep _ (pathForDomain_under E _ _ _)) in Hc2.
  split; congruence.
Qed.

Lemma read_stage_ok domains options s r s' t :
  read_stage E domains options s = (Ok r, s', t) →
  let domainPath := getStableDomainPath E domains in
  (∃ mode, fs s !! pathForDomain E domainPath ["private-key.key"]
           = Some (File mode (key r))) ∧
  (∃ mode, fs s !! pathForDomain E domainPath ["certificate.crt"]
           = Some (File mode (cert r))) ∧
  (if getCaBuffer options
   then ∃ mode data, fs s !! rootCACertPath E = Some (File mode data) ∧
                     ca r = Some data
   else ca r = None) ∧
  caPath r = (if getCaPath options then Some (rootCACertPath E) else None).
Proof.
  intros H domainPath. unfold read_stage in H. fold domainPath in H.
  apply bind_ok in H as (kd & s1 & ? & ? & (-> & -> & Hk)%readFile_ok & H & ->).
  apply bind_ok in H as (cd & s2 & ? & ? & (-> & -> & Hc)%readFile_ok & H & ->).
  apply bind_ok in H as (ad & s3 & ? & ? & Hca & H & ->).
  injection H as <- <- <-. simpl. split; [done|]. split; [done|]. split; [|done].
  destruct (getCaBuffer options).
  - apply bind_ok in Hca as (data & s4 & ? & ? & (-> & -> & [mode Hd])%readFile_ok & Hr & ->).
    injection Hr as <- <-. eauto.
  - by injection Hca as <- <-.
Qed.

(** X8. What a successful [certificateFor] returns is what is on disk when
    it returns: [key] and [cert] are the contents of the domain set's
    [private-key.key] and [certificate.crt]; [ca] is the content of the
    root CA certificate exactly when [getCaBuffer] is set, and [caPath] is
    its path exactly when [getCaPath] is set. *)
Theorem certificateFor_returns_what_is_on_disk req options s r s' t :
  certificateFor E req options s = (Ok r, s', t) →
  let domainPath := getStableDomainPath E (domains_of req) in
  (∃ mode, fs s' !! pathForDomain E domainPath ["private-key.key"]
           = Some (File mode (key r))) ∧
  (∃ mode, fs s' !! pathForDomain E domainPath ["certificate.crt"]
           = Some (File mode (cert r))) ∧
  (if getCaBuffer options
   then ∃ mode data, fs s' !! rootCACertPath E = Some (File mode data) ∧
                     ca r = Some data
   else ca r = None) ∧
  caPath r = (if getCaPath options then Some (rootCACertPath E) else None).
Proof.
  intros H.
  apply certificateFor_stages in H
    as [(d & _ & [=] & _) | (_ & [(_ & [=] & _) | [(_ & _ & [=] & _) |
         (_ & _ & t2 & H & ->)]])].
  apply bind_ok in H as (a1 & s2 & t1 & t3 & Hm & H & ->).
  apply issue_stage_inv in H as (rg & s3 & tg & _ &
    [(e & _ & [=] & _) | (_ & _ & _ & Hread)]).
  by apply read_stage_ok in Hread.
Qed.

(** Every run ends either before the hosts-file updates, with an error, or
    with the updates as its last events. *)
Lemma certificateFor_hosts_last req options s r s' t :
  certificateFor E req options s = (r, s', t) →
  ∃ t0, Forall (λ ev, is_hosts_event ev = false) t0 ∧
        ((t = t0 ∧ ∃ e, r = Err e) ∨
         t = t0 ++ hosts_events options (domains_of req)).
Proof.
  intros H.
  apply certificateFor_stages in H
    as [(d & _ & -> & _ & ->) | (_ & [(_ & -> & _ & ->) | [(_ & _ & -> & _ & ->) |
         (_ & _ & t2 & H & ->)]])].
  - exists []. split; [constructor|]. left. eauto.
  - exists (ui_events options). split; [apply ui_events_not_hosts|]. left. eauto.
  - exists (ui_events options). split; [apply ui_events_not_hosts|]. left. eauto.
  - assert (Hca : ∀ s1 r1 s2 t1, ca_stage E options s1 = (r1, s2, t1) →
                    Forall (λ ev, is_hosts_event ev = false) t1).
    { intros s1 r1 s2 t1 [(_ & -> & _) | [(_ & _ & -> & _) |
        (_ & _ & -> & _)]]%ca_stage_inv; by repeat constructor. }
    inv_bind H as a1 s2 t1 t3 Hm.
    { exists (ui_events options ++ t2). split; [|left; eauto].
      apply Forall_app. split; [apply ui_events_not_hosts|by eapply Hca]. }
    apply issue_stage_inv in H as (rg & s3 & tg & Hgenerate & Hrest).
    assert (Htg : Forall (λ ev, is_hosts_event ev = false) tg).
    { destruct (bool_decide _).
      - injection Hgenerate as _ _ ->. constructor.
      - eapply Forall_impl;
          [exact (emits_run _ _ _ _ _ _ (generateDomainCertificate_emits E _) Hgenerate)|].
        intros ev. by destruct ev. }
    exists (ui_events options ++ t1 ++ tg).
    split; [rewrite !Forall_app; eauto using ui_events_not_hosts|].
    destruct Hrest as [(e & _ & -> & _ & ->) | (_ & _ & -> & _)].
    + left. eauto.
    + right. by rewrite <- !app_assoc.
Qed.

(** X9. The hosts-file updates come last.  With [skipHostsFile] set no
    run touches the hosts file.  Otherwise a run that touches it has
    started one update for every requested domain, each as often as it is
    listed, after everything else it did; and every successful run has
    done so.  Nothing is said of the order of the updates: it is that of
    the array once [getStableDomainPath] has been handed it. *)
Theorem certificateFor_hosts_file_updates req options s r s' t :
  certificateFor E req options s = (r, s', t) →
  (skipHostsFile options = true → ∀ d, EvHostsFile d ∉ t) ∧
  (∀ d, EvHostsFile d ∈ t →
     skipHostsFile options = false ∧
     ∃ t0 order, order ≡ₚ domains_of req ∧
                 t = t0 ++ map EvHostsFile order ∧
                 Forall (λ ev, is_hosts_event ev = false) t0) ∧
  (∀ data, r = Ok data →
     ∃ t0 order, order ≡ₚ domains_of req ∧
                 t = t0 ++ (if skipHostsFile options then []
                            else map EvHostsFile order) ∧
                 Forall (λ ev, is_hosts_event ev = false) t0).
Proof.
  intros (t0 & Ht0 & Hshape)%certificateFor_hosts_last.
  assert (Hnot : ∀ d, EvHostsFile d ∉ t0).
  { intros d Hin. rewrite Forall_forall in Ht0. by apply Ht0 in Hin. }
  split; [|split].
  - intros Hskip d Hin. unfold hosts_events in Hshape. rewrite Hskip in Hshape.
    rewrite app_nil_r in Hshape. destruct Hshape as [[-> _] | ->]; by eapply Hnot.
  - intros d Hin. destruct Hshape as [[-> _] | ->]; [by apply Hnot in Hin|].
    unfold hosts_events in *. destruct (skipHostsFile options).
    + rewrite app_nil_r in Hin. by apply Hnot in Hin.
    + split; [done|]. by exists t0, (domains_of req).
  - intros data ->. destruct Hshape as [[_ [e [=]]] | ->].
    by exists t0, (domains_of req).
Qed.

(** X10. A cache entry whose certificate is there but whose private key is
    not a readable file is not healed.  Under the assumption of X6,
    [certificateFor] then never succeeds for that domain set and never
    regenerates the key: the entry has to be removed first. *)
Theorem certificateFor_does_not_heal_missing_key :
  caretakers_frame E →
  ∀ req options s,
    hasCertificateFor E req s = (Ok true, s, []) →
    (∀ mode content,
       fs s !! pathForDomain E (getStableDomainPath E (domains_of req))
                 ["private-key.key"] ≠ Some (File mode content)) →
    (∃ e, (certificateFor E req options s).1.1 = Err e) ∧
    Forall (λ ev, generation_event ev = false) (certificateFor E req options s).2.
Proof.
  intros frame req options s Hhas%hasCertificateFor_true Hkey.
  pose proof (run_eta (certificateFor E req options) s) as H.
  destruct (mt_run _ _ _ _ _ _ _ _
              (certificateFor_cached E frame req s options Hhas)
              (keeps_domains_refl E s) H) as [Hkeep Hev].
  split; [|exact Hev].
  destruct ((certificateFor E req options s).1.1) as [r|e] eqn:Hr; [|by exists e].
  exfalso. destruct (certificateFor_ok E _ _ _ _ _ _ H) as [[mk Hk] _].
  rewrite (Hkeep _ (pathForDomain_under E _ _ _)) in Hk. by eapply Hkey.
Qed.


(** X11. [certificateFor] keeps to the directory of the requested domain
    set.  In every run, its own filesystem and subprocess actions are: the
    [mkdirp] of that directory, [openssl genrsa] and [chmod 400] on the
    key in it, [openssl req] writing the signing request in it and
    [openssl ca] writing the certificate in it.  It never calls [rimraf]
    and never runs another [openssl] command. *)
Theorem certificateFor_keeps_to_its_directory req options s :
  Forall (issue_event E (domains_of req)) (certificateFor E req options s).2.
Proof.
  revert s. change (emits (issue_event E (domains_of req)) (certificateFor E req options)).
  unfold certificateFor, validate, generateDomainCertificate, generateKey,
    withDomainSigningRequestConfig, withDomainCertificateConfig, withDomainConfig,
    withCertificateAuthorityCredentials, openssl, mkdirp, chmod,
    installCertificateAuthority, ensureCACertReadable,
    addDomainToHostFileIfMissing, readFile, exists_.
  em_steps; unfold issue_event; simpl; eauto 10.
Qed.

(** *** Removing a domain *)

Lemma rimraf_fs_lookup sep path (m : filesystem) p :
  rimraf_fs sep path m !! p = if below sep path p then None else m !! p.
Proof.
  unfold rimraf_fs. destruct (below sep path p) eqn:Hb.
  - apply map_lookup_filter_None. right. intros x _. simpl. congruence.
  - apply option_eq. intros x. rewrite map_lookup_filter_Some. simpl. tauto.
Qed.

Lemma removeDomain_ok req s s' t :
  removeDomain E req s = (Ok tt, s', t) →
  ∃ s1 t1,
    revokeDomainCertificate E (domains_of req) s = (Ok tt, s1, t1) ∧
    s' = with_fs (rimraf_fs (pathSep E)
           (pathForDomain E (getStableDomainPath E (domains_of req)) [])) s1.
Proof.
  unfold removeDomain.
  intros (a1 & s1 & t1 & t2 & Hm & H & ->)%bind_ok. destruct a1.
  unfold rimraf, call_total in H. injection H as Hs Ht. subst s' t2.
  by exists s1, t1.
Qed.

(** X12. After a successful [removeDomain] nothing is left of the domain
    set: its directory and every entry below it are gone, and
    [hasCertificateFor] answers false for the same request. *)
Theorem removeDomain_then_absent req s s' t :
  removeDomain E req s = (Ok tt, s', t) →
  (∀ p, below (pathSep E)
          (pathForDomain E (getStableDomainPath E (domains_of req)) []) p = true →
        fs s' !! p = None) ∧
  hasCertificateFor E req s' = (Ok false, s', []).
Proof.
  intros (s1 & t1 & _ & ->)%removeDomain_ok.
  assert (Hgone : ∀ p, below (pathSep E)
            (pathForDomain E (getStableDomainPath E (domains_of req)) []) p = true →
            fs (with_fs (rimraf_fs (pathSep E)
                  (pathForDomain E (getStableDomainPath E (domains_of req)) [])) s1)
              !! p = None).
  { intros p Hp. simpl. by rewrite rimraf_fs_lookup, Hp. }
  split; [exact Hgone|].
  unfold hasCertificateFor. rewrite exists_run.
  rewrite (Hgone _ (domain_file_below E _ _)).
  by rewrite bool_decide_eq_false_2 by (by intros [? ?]).
Qed.


(** *** Generating and revoking *)

(** X14. [generateDomainCertificate] takes the CA credentials late and
    once.  A run that acquires them has by then made the directory,
    generated the key and set its mode, and written the signing request,
    in that order; a run that fails at any of these steps never touches
    the CA. *)
Theorem generateDomainCertificate_acquires_late domains s r s' t :
  generateDomainCertificate E domains s = (r, s', t) →
  EvAcquireCA ∈ t →
  let domainPath := getStableDomainPath E domains in
  let domainKeyPath := pathForDomain E domainPath ["private-key.key"] in
  let csrFile := pathForDomain E domainPath ["certificate-signing-request.csr"] in
  ∃ csrConfig t2,
    t = [EvMkdirp (pathForDomain E domainPath []);
         EvOpenssl ["genrsa"; "-out"; domainKeyPath; "2048"];
         EvChmod domainKeyPath 400;
         EvWriteConfig SigningRequestConfig domains;
         EvOpenssl ["req"; "-new"; "-config"; csrConfig; "-key"; domainKeyPath;
                    "-out"; csrFile];
         EvRemoveConfig csrConfig;
         EvAcquireCA] ++ t2 ∧
    EvAcquireCA ∉ t2.
Proof.
  intros H Hin domainPath domainKeyPath csrFile.
  apply generateDomainCertificate_prefix in H
    as [[_ Hout] | (csrConfig & s1 & t2 & -> & H)].
  { rewrite Forall_forall in Hout. by apply Hout in Hin. }
  exists csrConfig.
  apply (scoped_call_runs E domains (λ config k c, sign_args config _ _ k c)) in H
    as [(e & _ & ->) | (k & c & _ & [(e & _ & ->) |
         (config & [(e & _ & ->) | (_ & ->)])])];
    eexists; (split; [reflexivity|]);
    intros Hin2;
    repeat (apply elem_of_cons in Hin2 as [Hin2|Hin2]; [done|]);
    by apply elem_of_nil in Hin2.
Qed.

(** X15. Revocation addresses the certificate that was issued.  Whatever
    the order in which the domains are listed, the path the [openssl ca
    -revoke] call of [revokeDomainCertificate] names is the path the
    signing call of [generateDomainCertificate] wrote the certificate to. *)
Theorem revoke_targets_issued_certificate
    domains domains' s r s' t s0 r0 s0' t0 args args' :
  domains ≡ₚ domains' →
  generateDomainCertificate E domains s = (r, s', t) →
  revokeDomainCertificate E domains' s0 = (r0, s0', t0) →
  EvOpenssl ("ca" :: args) ∈ t →
  EvOpenssl ("ca" :: args') ∈ t0 →
  ∃ certPath config csrFile caKeyPath caCertPath config' caKeyPath' caCertPath',
    args = ["-config"; config; "-in"; csrFile; "-out"; certPath;
            "-keyfile"; caKeyPath; "-cert"; caCertPath;
            "-days"; "825"; "-batch"] ∧
    args' = ["-config"; config'; "-revoke"; certPath;
             "-keyfile"; caKeyPath'; "-cert"; caCertPath'].
Proof.
  intros Hperm Hgen Hrev Hin Hin'.
  pose proof (getStableDomainPath_perm E _ _ Hperm) as Hpath.
  exists (pathForDomain E (getStableDomainPath E domains) ["certificate.crt"]).
  apply generateDomainCertificate_prefix in Hgen
    as [[_ Hout] | (csrConfig & s1 & t2 & -> & Hgen)].
  { by apply outside_ca_not_ca in Hin. }
  apply elem_of_app in Hin as [Hin|Hin].
  { repeat (apply elem_of_cons in Hin as [Hin|Hin]; [done|]).
    by apply elem_of_nil in Hin. }
  assert (∃ config k c, args =
    ["-config"; config; "-in";
     pathForDomain E (getStableDomainPath E domains) ["certificate-signing-request.csr"];
     "-out"; pathForDomain E (getStableDomainPath E domains) ["certificate.crt"];
     "-keyfile"; k; "-cert"; c; "-days"; "825"; "-batch"])
    as (config & k & c & ->).
  { apply (scoped_call_runs E domains (λ config k c, sign_args config _ _ k c)) in Hgen
      as [(e & _ & ->) | (k & c & _ & [(e & _ & ->) |
           (config & [(e & _ & ->) | (_ & ->)])])];
      repeat (apply elem_of_cons in Hin as [Hin|Hin];
              [try done; injection Hin as ->; by exists config, k, c|]);
      by apply elem_of_nil in Hin. }
  assert (∃ config' k' c', args' =
    ["-config"; config'; "-revoke";
     pathForDomain E (getStableDomainPath E domains) ["certificate.crt"];
     "-keyfile"; k'; "-cert"; c']) as (config' & k' & c' & ->).
  { unfold revokeDomainCertificate in Hrev. rewrite <- Hpath in Hrev.
    apply (scoped_call_runs E domains' (λ config k c, revoke_args config _ k c)) in Hrev
      as [(e & _ & ->) | (k2 & c2 & _ & [(e & _ & ->) |
           (config2 & [(e & _ & ->) | (_ & ->)])])];
      repeat (apply elem_of_cons in Hin' as [Hin'|Hin'];
              [try done; injection Hin' as ->; by exists config2, k2, c2|]);
      by apply elem_of_nil in Hin'. }
  eauto 10.
Qed.


(** *** The life cycle of a domain set *)

(** X16. Removal resets the cache entry.  Under the assumption of X6, a
    [certificateFor] that succeeds after a successful [removeDomain] of the
    same domain set, listed in any order, runs the complete generation
    again: renewing a certificate is removing it and requesting it anew. *)
Theorem certificateFor_regenerates_after_removeDomain :
  caretakers_frame E →
  ∀ req req' options s s1 t1 r s2 t2,
    domains_of req ≡ₚ domains_of req' →
    removeDomain E req s = (Ok tt, s1, t1) →
    certificateFor E req' options s1 = (Ok r, s2, t2) →
    ∃ t0 csrConfig certConfig caKeyPath caCertPath,
      t2 = t0 ++ generation_trace E (domains_of req') csrConfig certConfig
                   caKeyPath caCertPath
              ++ hosts_events options (domains_of req') ∧
      Forall (λ ev, generation_event ev = false) t0.
Proof.
  intros frame req req' options s s1 t1 r s2 t2 Hperm Hremove Hagain.
  apply (certificateFor_absent_run req' options s1 r s2 t2 frame); [|exact Hagain].
  rewrite <- (getStableDomainPath_perm E _ _ Hperm).
  apply removeDomain_ok in Hremove as (s0 & t0 & _ & ->). simpl.
  by rewrite rimraf_fs_lookup, domain_file_below.
Qed.

End Extras.

(** ** The further properties on the concrete world *)

Lemma certificateFor_unsupported_platform_witness :
  supported SimVariants.other_platform = false ∧
  certificateFor SimVariants.other_platform (One "a.test") SimVariants.with_ca Sim.fresh =
  (Err PlatformNotSupported, Sim.fresh, [EvAssignUI]).
Proof.
  split; [reflexivity|].
  apply (certificateFor_unsupported_platform SimVariants.other_platform
           (One "a.test") SimVariants.with_ca Sim.fresh).
  - constructor; [right; reflexivity|constructor].
  - reflexivity.
Defined.

Lemma certificateFor_openssl_missing_witness :
  commandExists SimVariants.no_openssl "openssl" Sim.fresh = false ∧
  certificateFor SimVariants.no_openssl (One "a.test") Sim.defaults Sim.fresh =
  (Err OpenSSLNotFound, Sim.fresh, []).
Proof.
  split; [reflexivity|].
  apply (certificateFor_openssl_missing SimVariants.no_openssl
           (One "a.test") Sim.defaults Sim.fresh).
  - constructor; [right; reflexivity|constructor].
  - reflexivity.
  - reflexivity.
Defined.

Lemma certificateFor_reports_first_invalid_domain_witness :
  let req := Many ["a.test"; "*.example.com"; "*.b.test"] in
  (certificateFor Sim.E req Sim.defaults Sim.fresh).1.1
    = Err (InvalidDomain "*.example.com") ∧
  ∃ before after,
    domains_of req = before ++ "*.example.com" :: after ∧
    Forall (acceptable Sim.E) before.
Proof.
  intros req.
  assert (Hr : (certificateFor Sim.E req Sim.defaults Sim.fresh).1.1
               = Err (InvalidDomain "*.example.com")) by (vm_compute; reflexivity).
  split; [exact Hr|].
  destruct (certificateFor_reports_first_invalid_domain Sim.E req Sim.defaults
              Sim.fresh "*.example.com" Hr) as (before & after & Hd & Hb & _).
  by exists before, after.
Defined.

Lemma certificateFor_first_run_installs_witness :
  fs Sim.fresh !! rootCAKeyPath Sim.E = None ∧
  EvInstallCA ∈ (certificateFor Sim.E (One "a.test") Sim.defaults Sim.fresh).2.
Proof.
  split; [reflexivity|].
  apply (certificateFor_first_run_installs Sim.E (One "a.test") Sim.defaults
           Sim.fresh _ _ _ (run_eta _ _)).
  - constructor; [right; reflexivity|constructor].
  - reflexivity.
  - reflexivity.
  - reflexivity.
Defined.

Lemma certificateFor_ca_failure_is_fatal_witness :
  installCertificateAuthority_run SimVariants.failing_install Sim.defaults Sim.fresh
    = (Raised SimVariants.denied, Sim.fresh) ∧
  certificateFor SimVariants.failing_install (One "a.test") Sim.defaults Sim.fresh =
  (Err (Thrown SimVariants.denied), Sim.fresh, [EvInstallCA]).
Proof.
  split; [reflexivity|].
  assert (Hall : Forall (acceptable SimVariants.failing_install)
                   (domains_of (One "a.test")))
    by (constructor; [right; reflexivity|constructor]).
  destruct (certificateFor_ca_failure_is_fatal SimVariants.failing_install
              (One "a.test") Sim.defaults Sim.fresh SimVariants.denied Sim.fresh
              Hall eq_refl eq_refl) as [Hinstall _].
  exact (Hinstall eq_refl eq_refl).
Defined.

Lemma certificateFor_generates_when_absent_witness :
  hasCertificateFor Sim.E (One "a.test") Sim.fresh = (Ok false, Sim.fresh, []) ∧
  ∃ t0 csrConfig certConfig caKeyPath caCertPath,
    (certificateFor Sim.E (One "a.test") Sim.defaults Sim.fresh).2 =
    t0 ++ generation_trace Sim.E ["a.test"] csrConfig certConfig caKeyPath caCertPath
       ++ [EvHostsFile "a.test"].
Proof.
  split; [reflexivity|].
  destruct (certificateFor_generates_when_absent Sim.E sim_caretakers_frame
              (One "a.test") Sim.defaults Sim.fresh _ _ _ eq_refl sim_first_call_run)
    as (t0 & csrConfig & certConfig & k & c & Ht & _).
  by exists t0, csrConfig, certConfig, k, c.
Defined.

Lemma certificateFor_cache_ignores_order_witness :
  let first := certificateFor Sim.E (Many ["a.test"; "b.test"]) Sim.defaults Sim.fresh in
  let second := certificateFor Sim.E (Many ["b.test"; "a.test"]) Sim.defaults first.1.2 in
  first.1.1 = Ok {| key := "generated"; cert := "generated"; ca := None; caPath := None |} ∧
  Forall (λ ev, generation_event ev = false) second.2.
Proof.
  intros first second.
  assert (Hr : first.1.1 = Ok {| key := "generated"; cert := "generated";
                                 ca := None; caPath := None |})
    by (vm_compute; reflexivity).
  split; [exact Hr|].
  assert (Hfirst : certificateFor Sim.E (Many ["a.test"; "b.test"]) Sim.defaults Sim.fresh
                   = (Ok {| key := "generated"; cert := "generated";
                            ca := None; caPath := None |}, first.1.2, first.2))
    by (rewrite <- Hr; apply run_eta).
  destruct (certificateFor_cache_ignores_order Sim.E sim_caretakers_frame
              (Many ["a.test"; "b.test"]) (Many ["b.test"; "a.test"])
              Sim.defaults Sim.defaults Sim.fresh _ _ _ _ _ _
              (perm_swap _ _ _) Hfirst (run_eta _ _)) as [Hev _].
  exact Hev.
Defined.

Lemma certificateFor_returns_what_is_on_disk_witness :
  let run := certificateFor Sim.E (One "a.test") SimVariants.with_ca Sim.fresh in
  run.1.1 = Ok {| key := "generated"; cert := "generated"; ca := Some "ca cert";
                  caPath := Some "/cfg/rootCA.crt" |} ∧
  ∃ mode, fs run.1.2 !! "/cfg/rootCA.crt" = Some (File mode "ca cert").
Proof.
  intros run.
  assert (Hr : run.1.1 = Ok {| key := "generated"; cert := "generated";
                               ca := Some "ca cert";
                               caPath := Some "/cfg/rootCA.crt" |})
    by (vm_compute; reflexivity).
  split; [exact Hr|].
  assert (Hrun : certificateFor Sim.E (One "a.test") SimVariants.with_ca Sim.fresh
                 = (Ok {| key := "generated"; cert := "generated";
                          ca := Some "ca cert";
                          caPath := Some "/cfg/rootCA.crt" |}, run.1.2, run.2))
    by (rewrite <- Hr; apply run_eta).
  destruct (certificateFor_returns_what_is_on_disk Sim.E _ _ _ _ _ _ Hrun)
    as (_ & _ & (mode & data & Hfile & [= <-]) & _).
  by exists mode.
Defined.

Lemma certificateFor_hosts_file_updates_witness :
  let run := certificateFor Sim.E (Many ["b.test"; "a.test"]) Sim.defaults Sim.fresh in
  EvHostsFile "a.test" ∈ run.2 ∧
  ∃ t0 order, order ≡ₚ ["b.test"; "a.test"] ∧ run.2 = t0 ++ map EvHostsFile order.
Proof.
  intros run.
  assert (Hin : EvHostsFile "a.test" ∈ run.2) by (vm_compute; repeat constructor).
  split; [exact Hin|].
  destruct (certificateFor_hosts_file_updates Sim.E (Many ["b.test"; "a.test"])
              Sim.defaults Sim.fresh _ _ _ (run_eta _ _)) as (_ & Hlast & _).
  destruct (Hlast "a.test" Hin) as (_ & t0 & order & Hp & Ht & _).
  by exists t0, order.
Defined.

Lemma certificateFor_does_not_heal_missing_key_witness :
  hasCertificateFor Sim.E (One "a.test") SimVariants.broken
    = (Ok true, SimVariants.broken, []) ∧
  ∃ e, (certificateFor Sim.E (One "a.test") Sim.defaults SimVariants.broken).1.1 = Err e.
Proof.
  assert (Hhas : hasCertificateFor Sim.E (One "a.test") SimVariants.broken
                 = (Ok true, SimVariants.broken, [])) by (vm_compute; reflexivity).
  split; [exact Hhas|].
  destruct (certificateFor_does_not_heal_missing_key Sim.E sim_caretakers_frame
              (One "a.test") Sim.defaults SimVariants.broken Hhas) as [He _].
  - intros mode content. vm_compute. discriminate.
  - exact He.
Defined.

Lemma removeDomain_then_absent_witness :
  let run := removeDomain Sim.E (One "a.test") Sim.provisioned in
  run.1.1 = Ok tt ∧
  hasCertificateFor Sim.E (One "a.test") run.1.2 = (Ok false, run.1.2, []).
Proof.
  intros run.
  assert (Hr : run.1.1 = Ok tt) by (vm_compute; reflexivity).
  split; [exact Hr|].
  assert (Hrun : removeDomain Sim.E (One "a.test") Sim.provisioned
                 = (Ok tt, run.1.2, run.2)) by (rewrite <- Hr; apply run_eta).
  exact (proj2 (removeDomain_then_absent Sim.E _ _ _ _ Hrun)).
Defined.


Lemma generateDomainCertificate_acquires_late_witness :
  let run := generateDomainCertificate Sim.E ["a.test"] Sim.fresh in
  EvAcquireCA ∈ run.2 ∧
  ∃ csrConfig t2,
    run.2 = [EvMkdirp "/cfg/domains/a.test";
             EvOpenssl ["genrsa"; "-out"; "/cfg/domains/a.test/private-key.key"; "2048"];
             EvChmod "/cfg/domains/a.test/private-key.key" 400;
             EvWriteConfig SigningRequestConfig ["a.test"];
             EvOpenssl ["req"; "-new"; "-config"; csrConfig; "-key";
                        "/cfg/domains/a.test/private-key.key"; "-out";
                        "/cfg/domains/a.test/certificate-signing-request.csr"];
             EvRemoveConfig csrConfig; EvAcquireCA] ++ t2.
Proof.
  intros run.
  assert (Hin : EvAcquireCA ∈ run.2) by (vm_compute; repeat constructor).
  split; [exact Hin|].
  destruct (generateDomainCertificate_acquires_late Sim.E ["a.test"] Sim.fresh
              _ _ _ (run_eta _ _) Hin) as (csrConfig & t2 & Ht & _).
  exists csrConfig, t2. exact Ht.
Defined.

Lemma revoke_targets_issued_certificate_witness :
  let issued := generateDomainCertificate Sim.E ["a.test"; "b.test"] Sim.fresh in
  let revoked := revokeDomainCertificate Sim.E ["b.test"; "a.test"] Sim.fresh in
  ∃ args args' certPath,
    EvOpenssl ("ca" :: args) ∈ issued.2 ∧
    EvOpenssl ("ca" :: args') ∈ revoked.2 ∧
    args !! 5%nat = Some certPath ∧ args' !! 3%nat = Some certPath.
Proof.
  intros issued revoked.
  assert (Hin : EvOpenssl ["ca"; "-config"; "/tmp/devcert.conf"; "-in";
                  "/cfg/domains/a.test,b.test/certificate-signing-request.csr";
                  "-out"; "/cfg/domains/a.test,b.test/certificate.crt";
                  "-keyfile"; "/cfg/rootCA.key"; "-cert"; "/cfg/rootCA.crt";
                  "-days"; "825"; "-batch"] ∈ issued.2)
    by (vm_compute; repeat constructor).
  assert (Hin' : EvOpenssl ["ca"; "-config"; "/tmp/devcert.conf"; "-revoke";
                   "/cfg/domains/a.test,b.test/certificate.crt";
                   "-keyfile"; "/cfg/rootCA.key"; "-cert"; "/cfg/rootCA.crt"]
                 ∈ revoked.2)
    by (vm_compute; repeat constructor).
  destruct (revoke_targets_issued_certificate Sim.E _ _ _ _ _ _ _ _ _ _ _ _
              (perm_swap _ _ _) (run_eta _ _) (run_eta _ _) Hin Hin')
    as (certPath & ? & ? & ? & ? & ? & ? & ? & Ha & Ha').
  eexists _, _, certPath. split; [exact Hin|]. split; [exact Hin'|].
  rewrite Ha, Ha'. by split.
Defined.

Lemma certificateFor_regenerates_after_removeDomain_witness :
  let removed := removeDomain Sim.E (One "a.test") Sim.provisioned in
  let again := certificateFor Sim.E (One "a.test") Sim.defaults removed.1.2 in
  removed.1.1 = Ok tt ∧
  again.1.1 = Ok {| key := "generated"; cert := "generated"; ca := None; caPath := None |} ∧
  ∃ t0 csrConfig certConfig caKeyPath caCertPath,
    again.2 = t0 ++ generation_trace Sim.E ["a.test"] csrConfig certConfig
                      caKeyPath caCertPath
                 ++ [EvHostsFile "a.test"].
Proof.
  intros removed again.
  assert (Hr : removed.1.1 = Ok tt) by (vm_compute; reflexivity).
  assert (Ha : again.1.1 = Ok {| key := "generated"; cert := "generated";
                                 ca := None; caPath := None |})
    by (vm_compute; reflexivity).
  split; [exact Hr|]. split; [exact Ha|].
  assert (Hremove : removeDomain Sim.E (One "a.test") Sim.provisioned
                    = (Ok tt, removed.1.2, removed.2))
    by (rewrite <- Hr; apply run_eta).
  assert (Hagain : certificateFor Sim.E (One "a.test") Sim.defaults removed.1.2
                   = (Ok {| key := "generated"; cert := "generated";
                            ca := None; caPath := None |}, again.1.2, again.2))
    by (rewrite <- Ha; apply run_eta).
  destruct (certificateFor_regenerates_after_removeDomain Sim.E sim_caretakers_frame
              (One "a.test") (One "a.test") Sim.defaults _ _ _ _ _ _
              (Permutation_refl _) Hremove Hagain)
    as (t0 & csrConfig & certConfig & k & c & Ht & _).
  by exists t0, csrConfig, certConfig, k, c.
Defined.
